(** * gomuks [config] package: session and configuration persistence

    A shallow embedding of [config/config.go].  The Go methods mutate the
    [Config] behind a pointer and the file tree behind the [os] package; here
    both are threaded explicitly through a small state-and-panic monad.

    What the package imports but does not define (the [os]/[ioutil] file
    system, the YAML and JSON codecs, the room-cache collaborator) is kept
    apart from what the package itself decides:
    - the file system is a finite map from locations to nodes, together with
      the list of system calls issued so far;
    - the codecs and the collaborator are parameters ([Externals], [Libs]);
      the struct tags of the source fix which fields the YAML codec can see. *)

From stdpp Require Import base option numbers strings list gmap fin_maps.

Local Open Scope string_scope.
Local Open Scope list_scope.
Local Open Scope Z_scope.

(** ** Locations

    A [path] is the resolved location a Go path string denotes: the list of
    its components below the root.  [filepath.Join dir name] with a single
    component [name] is the child [name] of [dir]. *)

Abbreviation path := (list string).

Definition Join (dir : path) (name : string) : path := dir ++ [name].

(** [strings.HasSuffix]. *)
Definition chars (s : string) : list Ascii.ascii := String.list_ascii_of_string s.

Definition has_prefix_b (p l : list Ascii.ascii) : bool :=
  bool_decide (take (length p) l = p).

Definition HasSuffix (s suffix : string) : bool :=
  has_prefix_b (reverse (chars suffix)) (reverse (chars s)).

(** ** Errors and panics *)

Inductive error : Type :=
  | ENOENT            (* no such file or directory *)
  | ENOTDIR           (* a path component is a regular file *)
  | EISDIR            (* the path names a directory *)
  | ENOTEMPTY         (* directory not empty *)
  | EINVAL
  | CodecError (msg : string)       (* yaml / json failure *)
  | RoomCacheError (msg : string).  (* failure reported by the room cache *)

(** [os.IsNotExist]. *)
Definition IsNotExist (e : error) : bool :=
  match e with ENOENT => true | _ => false end.

(** The value handed to [panic]: an [error], a string, or the runtime's
    nil-dereference. *)
Inductive PanicValue : Type :=
  | PanicError (e : error)
  | PanicString (s : string)
  | PanicNilDeref.

(** ** The file tree

    The root is an implicit directory; every other location is absent, a
    regular file or a directory.  Permission bits are not modelled. *)

Section FileSystem.
Context {Bytes : Type}.

Inductive node : Type :=
  | File (data : Bytes)
  | Directory.

Definition is_file (n : node) : bool :=
  match n with File _ => true | Directory => false end.

Definition is_dir_at (fs : gmap path node) (p : path) : bool :=
  match p with
  | [] => true
  | _ => match fs !! p with Some Directory => true | _ => false end
  end.

Definition is_file_at (fs : gmap path node) (p : path) : bool :=
  match fs !! p with Some (File _) => true | _ => false end.

(** The non-empty prefixes of a location, shortest first: the directories
    [os.MkdirAll] walks through. *)
Fixpoint ancestors_from (base : path) (rest : path) : list path :=
  match rest with
  | [] => []
  | x :: rest' => (base ++ [x]) :: ancestors_from (base ++ [x]) rest'
  end.

Definition ancestors (p : path) : list path := ancestors_from [] p.

Definition blocked (fs : gmap path node) (p : path) : bool :=
  existsb (is_file_at fs) (ancestors p).

Definition mkdir1 (q : path) (fs : gmap path node) : gmap path node :=
  match fs !! q with
  | None => <[q := Directory]> fs
  | Some _ => fs
  end.

(** [os.MkdirAll]: creates the directory and every missing parent; fails
    when a component is a regular file. *)
Definition fs_MkdirAll (fs : gmap path node) (p : path)
  : gmap path node * option error :=
  if blocked fs p then (fs, Some ENOTDIR)
  else (foldr mkdir1 fs (ancestors p), None).

Definition has_children (fs : gmap path node) (p : path) : bool :=
  bool_decide (map_Exists (λ k _, p ≠ k ∧ p `prefix_of` k) fs).

(** [os.Remove]: removes a file or an empty directory. *)
Definition fs_Remove (fs : gmap path node) (p : path)
  : gmap path node * option error :=
  match p with
  | [] => (fs, Some EINVAL)
  | _ =>
    match fs !! p with
    | None => (fs, Some ENOENT)
    | Some (File _) => (delete p fs, None)
    | Some Directory =>
        if has_children fs p then (fs, Some ENOTEMPTY)
        else (delete p fs, None)
    end
  end.

Definition parent (p : path) : path := removelast p.

(** [os.RemoveAll]: removes the location and everything below it; a
    location that does not exist is not an error. *)
Definition fs_RemoveAll (fs : gmap path node) (p : path)
  : gmap path node * option error :=
  (filter (λ kv, ¬ (p `prefix_of` kv.1)) fs,
   if blocked fs (parent p) then Some ENOTDIR else None).

(** [ioutil.ReadFile]. *)
Definition fs_ReadFile (fs : gmap path node) (p : path) : Bytes + error :=
  match p with
  | [] => inr EISDIR
  | _ =>
    match fs !! p with
    | Some (File data) => inl data
    | Some Directory => inr EISDIR
    | None =>
        if blocked fs p then inr ENOTDIR else inr ENOENT
    end
  end.

(** [ioutil.WriteFile]: creates or replaces a regular file inside an
    existing directory. *)
Definition fs_WriteFile (fs : gmap path node) (p : path) (data : Bytes)
  : gmap path node * option error :=
  match p with
  | [] => (fs, Some EISDIR)
  | _ =>
    if is_dir_at fs p then (fs, Some EISDIR)
    else if is_dir_at fs (parent p) then (<[p := File data]> fs, None)
    else if blocked fs p then (fs, Some ENOTDIR)
    else (fs, Some ENOENT)
  end.

(** The system calls the package issues, in the order it issues them. *)
Inductive Syscall : Type :=
  | SysMkdirAll (p : path)
  | SysRemove (p : path)
  | SysRemoveAll (p : path)
  | SysReadFile (p : path)
  | SysWriteFile (p : path) (data : Bytes).

Record World : Type := mkWorld {
  fs : gmap path node;
  trace : list Syscall;
}.

Definition sys (call : Syscall) (w : World) (fs' : gmap path node) : World :=
  mkWorld fs' (trace w ++ [call]).

Definition os_MkdirAll (p : path) (w : World) : World * option error :=
  let '(fs', e) := fs_MkdirAll (fs w) p in (sys (SysMkdirAll p) w fs', e).

Definition os_Remove (p : path) (w : World) : World * option error :=
  let '(fs', e) := fs_Remove (fs w) p in (sys (SysRemove p) w fs', e).

Definition os_RemoveAll (p : path) (w : World) : World * option error :=
  let '(fs', e) := fs_RemoveAll (fs w) p in (sys (SysRemoveAll p) w fs', e).

Definition ioutil_ReadFile (p : path) (w : World) : World * (Bytes + error) :=
  (sys (SysReadFile p) w (fs w), fs_ReadFile (fs w) p).

Definition ioutil_WriteFile (p : path) (data : Bytes) (w : World)
  : World * option error :=
  let '(fs', e) := fs_WriteFile (fs w) p data in
  (sys (SysWriteFile p data) w fs', e).
End FileSystem.

Arguments node : clear implicits.
Arguments Syscall : clear implicits.
Arguments World : clear implicits.

(** ** Data model

    The structs of the source, field for field.  [id.UserID] and
    [id.DeviceID] are string types.  Three fields of [Config] carry the name
    of their own struct type in Go; those projections get a [cfg] prefix. *)

Record AuthCache : Type := mkAuthCache {
  NextBatch : string;        (* yaml:"next_batch" *)
  FilterID : string;         (* yaml:"filter_id" *)
  InitialSyncDone : bool;    (* yaml:"initial_sync_done" *)
}.

Record UserPreferences : Type := mkUserPreferences {
  HideUserList : bool;
  HideRoomList : bool;
  BareMessageView : bool;
  DisableImages : bool;
  DisableTypingNotifs : bool;
  DisableEmojis : bool;
  DisableMarkdown : bool;
  DisableHTML : bool;
  DisableDownloads : bool;
  DisableNotifications : bool;
  DisableShowURLs : bool;
}.

Record KeyMap : Type := mkKeyMap {
  VerificationDone : string;
  VerificationSubmit : string;
  FuzzySearchOpen : string;
  FuzzySearchClose : string;
  FuzzySearchNext : string;
  FuzzySearchPrev : string;
  FuzzySearchChoose : string;
  RoomNext : string;
  RoomPrev : string;
  RoomViewTop : string;
  RoomViewBottom : string;
  RoomViewScrollUp : string;
  RoomViewScrollDown : string;
  MessageSelectCancel : string;
  MessageSelectNext : string;
  MessageSelectPrev : string;
  MessageSelectChoose : string;
  MessageInputNewline : string;
  MessageInputClear : string;
  MessageInputSend : string;
  BareViewOpen : string;
}.

(** The zero values Go gives to freshly allocated structs. *)
Definition zeroAuthCache : AuthCache := mkAuthCache "" "" false.

Definition zeroUserPreferences : UserPreferences :=
  mkUserPreferences false false false false false false false false false
                    false false.

Definition zeroKeyMap : KeyMap :=
  mkKeyMap "" "" "" "" "" "" "" "" "" "" "" "" "" "" "" "" "" "" "" "" "".

(** The types the package only imports: file contents ([[]byte]), the
    push-rule payload and the room cache. *)
Class Externals : Type := {
  Bytes : Type;
  PushRuleset : Type;
  RoomCache : Type;
}.

Section DataModel.
Context `{Externals}.

(** [Config] contains the main config of gomuks. *)
Record Config : Type := mkConfig {
  UserID : string;                (* yaml:"mxid" *)
  DeviceID : string;              (* yaml:"device_id" *)
  AccessToken : string;           (* yaml:"access_token" *)
  HS : string;                    (* yaml:"homeserver" *)
  RoomCacheSize : Z;              (* yaml:"room_cache_size" *)
  RoomCacheAge : Z;               (* yaml:"room_cache_age" *)
  NotifySound : bool;             (* yaml:"notify_sound" *)
  SendToVerifiedOnly : bool;      (* yaml:"send_to_verified_only" *)
  Dir : path;                     (* yaml:"-" *)
  DataDir : path;                 (* yaml:"data_dir" *)
  CacheDir : path;                (* yaml:"cache_dir" *)
  HistoryPath : path;             (* yaml:"history_path" *)
  RoomListPath : path;            (* yaml:"room_list_path" *)
  MediaDir : path;                (* yaml:"media_dir" *)
  DownloadDir : path;             (* yaml:"download_dir" *)
  StateDir : path;                (* yaml:"state_dir" *)
  Keymap : string;                (* yaml:"keymap" *)
  cfgKeyMap : KeyMap;             (* yaml:"-" *)
  Preferences : UserPreferences;  (* yaml:"-" *)
  cfgAuthCache : AuthCache;       (* yaml:"-" *)
  Rooms : option RoomCache;       (* yaml:"-" *)
  PushRules : option PushRuleset; (* yaml:"-" *)
  nosave : bool;                  (* unexported *)
}.

(** Field assignments [config.X = v]. *)
Definition set_DeviceID (v : string) (c : Config) : Config :=
  mkConfig (UserID c) (v) (AccessToken c) (HS c) (RoomCacheSize c)
           (RoomCacheAge c) (NotifySound c) (SendToVerifiedOnly c) (Dir c)
           (DataDir c) (CacheDir c) (HistoryPath c) (RoomListPath c)
           (MediaDir c) (DownloadDir c) (StateDir c) (Keymap c) (cfgKeyMap c)
           (Preferences c) (cfgAuthCache c) (Rooms c) (PushRules c) (nosave c).

Definition set_AccessToken (v : string) (c : Config) : Config :=
  mkConfig (UserID c) (DeviceID c) (v) (HS c) (RoomCacheSize c)
           (RoomCacheAge c) (NotifySound c) (SendToVerifiedOnly c) (Dir c)
           (DataDir c) (CacheDir c) (HistoryPath c) (RoomListPath c)
           (MediaDir c) (DownloadDir c) (StateDir c) (Keymap c) (cfgKeyMap c)
           (Preferences c) (cfgAuthCache c) (Rooms c) (PushRules c) (nosave c).

Definition set_cfgKeyMap (v : KeyMap) (c : Config) : Config :=
  mkConfig (UserID c) (DeviceID c) (AccessToken c) (HS c) (RoomCacheSize c)
           (RoomCacheAge c) (NotifySound c) (SendToVerifiedOnly c) (Dir c)
           (DataDir c) (CacheDir c) (HistoryPath c) (RoomListPath c)
           (MediaDir c) (DownloadDir c) (StateDir c) (Keymap c) (v)
           (Preferences c) (cfgAuthCache c) (Rooms c) (PushRules c) (nosave c).

Definition set_Preferences (v : UserPreferences) (c : Config) : Config :=
  mkConfig (UserID c) (DeviceID c) (AccessToken c) (HS c) (RoomCacheSize c)
           (RoomCacheAge c) (NotifySound c) (SendToVerifiedOnly c) (Dir c)
           (DataDir c) (CacheDir c) (HistoryPath c) (RoomListPath c)
           (MediaDir c) (DownloadDir c) (StateDir c) (Keymap c) (cfgKeyMap c)
           (v) (cfgAuthCache c) (Rooms c) (PushRules c) (nosave c).

Definition set_cfgAuthCache (v : AuthCache) (c : Config) : Config :=
  mkConfig (UserID c) (DeviceID c) (AccessToken c) (HS c) (RoomCacheSize c)
           (RoomCacheAge c) (NotifySound c) (SendToVerifiedOnly c) (Dir c)
           (DataDir c) (CacheDir c) (HistoryPath c) (RoomListPath c)
           (MediaDir c) (DownloadDir c) (StateDir c) (Keymap c) (cfgKeyMap c)
           (Preferences c) (v) (Rooms c) (PushRules c) (nosave c).

Definition set_Rooms (v : option RoomCache) (c : Config) : Config :=
  mkConfig (UserID c) (DeviceID c) (AccessToken c) (HS c) (RoomCacheSize c)
           (RoomCacheAge c) (NotifySound c) (SendToVerifiedOnly c) (Dir c)
           (DataDir c) (CacheDir c) (HistoryPath c) (RoomListPath c)
           (MediaDir c) (DownloadDir c) (StateDir c) (Keymap c) (cfgKeyMap c)
           (Preferences c) (cfgAuthCache c) (v) (PushRules c) (nosave c).

Definition set_PushRules (v : option PushRuleset) (c : Config) : Config :=
  mkConfig (UserID c) (DeviceID c) (AccessToken c) (HS c) (RoomCacheSize c)
           (RoomCacheAge c) (NotifySound c) (SendToVerifiedOnly c) (Dir c)
           (DataDir c) (CacheDir c) (HistoryPath c) (RoomListPath c)
           (MediaDir c) (DownloadDir c) (StateDir c) (Keymap c) (cfgKeyMap c)
           (Preferences c) (cfgAuthCache c) (Rooms c) (v) (nosave c).

Definition set_nosave (v : bool) (c : Config) : Config :=
  mkConfig (UserID c) (DeviceID c) (AccessToken c) (HS c) (RoomCacheSize c)
           (RoomCacheAge c) (NotifySound c) (SendToVerifiedOnly c) (Dir c)
           (DataDir c) (CacheDir c) (HistoryPath c) (RoomListPath c)
           (MediaDir c) (DownloadDir c) (StateDir c) (Keymap c) (cfgKeyMap c)
           (Preferences c) (cfgAuthCache c) (Rooms c) (PushRules c) (v).

Definition set_NextBatch (v : string) (c : Config) : Config :=
  set_cfgAuthCache
    (mkAuthCache v (FilterID (cfgAuthCache c))
                 (InitialSyncDone (cfgAuthCache c))) c.

Definition set_FilterID (v : string) (c : Config) : Config :=
  set_cfgAuthCache
    (mkAuthCache (NextBatch (cfgAuthCache c)) v
                 (InitialSyncDone (cfgAuthCache c))) c.

Definition set_InitialSyncDone (v : bool) (c : Config) : Config :=
  set_cfgAuthCache
    (mkAuthCache (NextBatch (cfgAuthCache c)) (FilterID (cfgAuthCache c))
                 v) c.

(** What [yaml.v2] can see of a [Config]: the exported fields whose tag is
    not ["-"], under their keys.  [Dir], [KeyMap], [Preferences],
    [AuthCache], [Rooms] and [PushRules] are tagged ["-"]; [nosave] is
    unexported. *)
Record ConfigYAML : Type := mkConfigYAML {
  y_mxid : string;
  y_device_id : string;
  y_access_token : string;
  y_homeserver : string;
  y_room_cache_size : Z;
  y_room_cache_age : Z;
  y_notify_sound : bool;
  y_send_to_verified_only : bool;
  y_data_dir : path;
  y_cache_dir : path;
  y_history_path : path;
  y_room_list_path : path;
  y_media_dir : path;
  y_download_dir : path;
  y_state_dir : path;
  y_keymap : string;
}.

Definition yaml_view (c : Config) : ConfigYAML :=
  mkConfigYAML (UserID c) (DeviceID c) (AccessToken c) (HS c) (RoomCacheSize c)
               (RoomCacheAge c) (NotifySound c) (SendToVerifiedOnly c) (DataDir c)
               (CacheDir c) (HistoryPath c) (RoomListPath c) (MediaDir c)
               (DownloadDir c) (StateDir c) (Keymap c).

(** Decoding writes the visible fields of the target and leaves the rest. *)
Definition yaml_merge (y : ConfigYAML) (c : Config) : Config :=
  mkConfig (y_mxid y) (y_device_id y) (y_access_token y) (y_homeserver y)
           (y_room_cache_size y) (y_room_cache_age y) (y_notify_sound y)
           (y_send_to_verified_only y) (Dir c) (y_data_dir y) (y_cache_dir y)
           (y_history_path y) (y_room_list_path y) (y_media_dir y)
           (y_download_dir y) (y_state_dir y) (y_keymap y) (cfgKeyMap c)
           (Preferences c) (cfgAuthCache c) (Rooms c) (PushRules c) (nosave c).

End DataModel.

(** ** Imported libraries

    A codec is a [Marshal]/[Unmarshal] pair as [yaml.v2] and [encoding/json]
    offer it: [Unmarshal data target] decodes into an existing value and may
    leave it partly written when it reports an error. *)

Record Codec (B V : Type) : Type := mkCodec {
  Marshal : V -> B + error;
  Unmarshal : B -> V -> V * option error;
}.

Arguments mkCodec {B V} _ _.
Arguments Marshal {B V} _ _.
Arguments Unmarshal {B V} _ _ _.

(** The behaviour of the imported packages.  The codecs act on what
    reflection shows them; the room cache is constructed by [NewRoomCache]
    (its last argument in the source, the method value [config.GetUserID], is
    passed to the collaborator's operations as the user id it returns at that
    moment). *)
Class Libs `{Externals} : Type := {
  yaml_AuthCache : Codec Bytes AuthCache;
  yaml_UserPreferences : Codec Bytes UserPreferences;
  yaml_KeyMap : Codec Bytes KeyMap;
  yaml_Config : Codec Bytes ConfigYAML;
  yaml_PushRules : Codec Bytes (option PushRuleset);
  json_AuthCache : Codec Bytes AuthCache;
  json_UserPreferences : Codec Bytes UserPreferences;
  json_KeyMap : Codec Bytes KeyMap;
  json_Config : Codec Bytes Config;
  json_PushRules : Codec Bytes (option PushRuleset);
  NewRoomCache : path -> path -> Z -> Z -> RoomCache;
  LoadList : RoomCache -> string -> World Bytes
             -> RoomCache * World Bytes * option error;
  SaveList : RoomCache -> string -> World Bytes
             -> RoomCache * World Bytes * option error;
  SaveLoadedRooms : RoomCache -> string -> World Bytes
                    -> RoomCache * World Bytes;
}.

(** A value that can be passed as the [interface{}] argument of [load] and
    [save]: both codecs accept it. *)
Class Serializable `{Externals} (V : Type) : Type := {
  yaml : Codec Bytes V;
  json : Codec Bytes V;
}.

Section Package.
Context `{Libs}.

#[export] Instance AuthCache_Serializable : Serializable AuthCache :=
  {| yaml := yaml_AuthCache; json := json_AuthCache |}.

#[export] Instance UserPreferences_Serializable
  : Serializable UserPreferences :=
  {| yaml := yaml_UserPreferences; json := json_UserPreferences |}.

#[export] Instance KeyMap_Serializable : Serializable KeyMap :=
  {| yaml := yaml_KeyMap; json := json_KeyMap |}.

#[export] Instance PushRules_Serializable
  : Serializable (option PushRuleset) :=
  {| yaml := yaml_PushRules; json := json_PushRules |}.

(** For [*Config] the YAML codec works through the tagged fields; neither
    codec can reach the unexported [nosave]. *)
Definition Config_yaml : Codec Bytes Config :=
  mkCodec
    (fun c => Marshal yaml_Config (yaml_view c))
    (fun data target =>
       let '(y, err) := Unmarshal yaml_Config data (yaml_view target) in
       (yaml_merge y target, err)).

Definition Config_json : Codec Bytes Config :=
  mkCodec
    (fun c => Marshal json_Config c)
    (fun data target =>
       let '(c, err) := Unmarshal json_Config data target in
       (set_nosave (nosave target) c, err)).

#[export] Instance Config_Serializable : Serializable Config :=
  {| yaml := Config_yaml; json := Config_json |}.

(** ** State and control flow

    A method runs on the aggregate and the file tree and either returns or
    panics; in both cases the state it reached is kept. *)

Record State : Type := mkState {
  cfg : Config;
  world : World Bytes;
}.

Inductive Outcome (A : Type) : Type :=
  | Ret (a : A) (s : State)
  | Panic (v : PanicValue) (s : State).

Arguments Ret {A} _ _.
Arguments Panic {A} _ _.

Definition M (A : Type) : Type := State -> Outcome A.

Definition ret {A} (a : A) : M A := fun s => Ret a s.

Definition bind {A B} (m : M A) (k : A -> M B) : M B :=
  fun s => match m s with
           | Ret a s' => k a s'
           | Panic v s' => Panic v s'
           end.

Definition panic {A} (v : PanicValue) : M A := fun s => Panic v s.

Definition get_cfg : M Config := fun s => Ret (cfg s) s.

Definition modify_cfg (f : Config -> Config) : M unit :=
  fun s => Ret tt (mkState (f (cfg s)) (world s)).

Definition os {A} (call : World Bytes -> World Bytes * A) : M A :=
  fun s => let '(w, a) := call (world s) in Ret a (mkState (cfg s) w).

Definition final {A} (o : Outcome A) : State :=
  match o with Ret _ s => s | Panic _ s => s end.

Definition returned {A} (o : Outcome A) : bool :=
  match o with Ret _ _ => true | Panic _ _ => false end.
End Package.

Arguments Ret {_ A} _ _.
Arguments Panic {_ A} _ _.

Notation "x <- m ;; k" := (bind m (fun x => k))
  (at level 100, m at next level, right associativity).
Notation "m ;; k" := (bind m (fun _ => k))
  (at level 100, right associativity).

(** ** The methods of [*Config] *)

Section Operations.
Context `{Libs}.

(** [NewConfig] creates a config that loads data from the given
    directory.  The fields it does not mention take their zero value. *)
Definition NewConfig (configDir dataDir cacheDir downloadDir : path)
  : Config :=
  {| UserID := ""; DeviceID := ""; AccessToken := ""; HS := "";
     RoomCacheSize := 32;
     RoomCacheAge := 1 * 60;
     NotifySound := true;
     SendToVerifiedOnly := false;
     Dir := configDir;
     DataDir := dataDir;
     CacheDir := cacheDir;
     HistoryPath := Join cacheDir "history.db";
     RoomListPath := Join cacheDir "rooms.gob.gz";
     MediaDir := Join cacheDir "media";
     DownloadDir := downloadDir;
     StateDir := Join cacheDir "state";
     Keymap := "default";
     cfgKeyMap := zeroKeyMap;
     Preferences := zeroUserPreferences;
     cfgAuthCache := zeroAuthCache;
     Rooms := None;
     PushRules := None;
     nosave := false |}.

(** A call whose error result is discarded: [_ = os.Remove(...)]. *)
Definition discard {A} (m : M A) : M unit := m;; ret tt.

(** [Clear] clears the session cache and removes all history. *)
Definition Clear : M unit :=
  c <- get_cfg;; discard (os (os_Remove (HistoryPath c)));;
  c <- get_cfg;; discard (os (os_Remove (RoomListPath c)));;
  c <- get_cfg;; discard (os (os_RemoveAll (StateDir c)));;
  c <- get_cfg;; discard (os (os_RemoveAll (MediaDir c)));;
  c <- get_cfg;; discard (os (os_RemoveAll (CacheDir c)));;
  modify_cfg (set_nosave true).

(** [ClearData] clears non-temporary session data. *)
Definition ClearData : M unit :=
  c <- get_cfg;; discard (os (os_RemoveAll (DataDir c))).

Definition CreateCacheDirs : M unit :=
  c <- get_cfg;; discard (os (os_MkdirAll (CacheDir c)));;
  c <- get_cfg;; discard (os (os_MkdirAll (DataDir c)));;
  c <- get_cfg;; discard (os (os_MkdirAll (StateDir c)));;
  c <- get_cfg;; discard (os (os_MkdirAll (MediaDir c))).

Definition freshRooms (c : Config) : RoomCache :=
  NewRoomCache (RoomListPath c) (StateDir c) (RoomCacheSize c)
               (RoomCacheAge c).

Definition DeleteSession : M unit :=
  modify_cfg (set_NextBatch "");;
  modify_cfg (set_InitialSyncDone false);;
  modify_cfg (set_AccessToken "");;
  modify_cfg (set_DeviceID "");;
  modify_cfg (fun c => set_Rooms (Some (freshRooms c)) c);;
  modify_cfg (set_PushRules None);;
  ClearData;;
  Clear;;
  modify_cfg (set_nosave false);;
  CreateCacheDirs.

Definition codec_for {V} `{!Serializable V} (file : string)
  : Codec Bytes V :=
  if HasSuffix file ".yaml" then yaml else json.

(** [load]: [target] is a pointer into the aggregate, given here by how to
    read and how to write the place it points to. *)
Definition load {V} `{!Serializable V} (name : string) (dir : path)
    (file : string) (target : Config -> V)
    (assign : V -> Config -> Config) : M unit :=
  err <- os (os_MkdirAll dir);;
  match err with
  | Some e => panic (PanicError e)
  | None =>
    let path := Join dir file in
    r <- os (ioutil_ReadFile path);;
    match r with
    | inr e =>
        if IsNotExist e then ret tt
        else panic (PanicError e)
    | inl data =>
        c <- get_cfg;;
        let '(v, err) := Unmarshal (codec_for file) data (target c) in
        modify_cfg (assign v);;
        match err with
        | Some e => panic (PanicError e)
        | None => ret tt
        end
    end
  end.

Definition save {V} `{!Serializable V} (name : string) (dir : path)
    (file : string) (source : Config -> V) : M unit :=
  c <- get_cfg;;
  if nosave c then ret tt
  else
    err <- os (os_MkdirAll dir);;
    match err with
    | Some e => panic (PanicError e)
    | None =>
      c <- get_cfg;;
      match Marshal (codec_for file) (source c) with
      | inr e => panic (PanicError e)
      | inl data =>
          let path := Join dir file in
          err <- os (ioutil_WriteFile path data);;
          match err with
          | Some e => panic (PanicError e)
          | None => ret tt
          end
      end
    end.

(** [Load] loads the config from config.yaml in the directory given to the
    config struct. *)
Definition Load : M unit :=
  c <- get_cfg;;
  load "config" (Dir c) "config.yaml" (fun c => c) (fun v _ => v);;
  CreateCacheDirs.

(** [Save] saves this config to config.yaml in the directory given to the
    config struct. *)
Definition Save : M unit :=
  c <- get_cfg;; save "config" (Dir c) "config.yaml" (fun c => c).

Definition LoadPreferences : M unit :=
  c <- get_cfg;;
  load "user preferences" (CacheDir c) "preferences.yaml"
       Preferences set_Preferences.

Definition SavePreferences : M unit :=
  c <- get_cfg;;
  save "user preferences" (CacheDir c) "preferences.yaml" Preferences.

Definition LoadAuthCache : M unit :=
  c <- get_cfg;;
  load "auth cache" (CacheDir c) "auth-cache.yaml"
       cfgAuthCache set_cfgAuthCache.

Definition SaveAuthCache : M unit :=
  c <- get_cfg;;
  save "auth cache" (CacheDir c) "auth-cache.yaml" cfgAuthCache.

Definition LoadPushRules : M unit :=
  c <- get_cfg;;
  load "push rules" (CacheDir c) "pushrules.json" PushRules set_PushRules.

Definition SavePushRules : M unit :=
  c <- get_cfg;;
  match PushRules c with
  | None => ret tt
  | Some _ =>
      save "push rules" (CacheDir c) "pushrules.json" PushRules
  end.

(** [LoadKeymap]: the source's test for the keymap named "default" guards an
    empty block, so every name takes the same path. *)
Definition LoadKeymap : M unit :=
  c <- get_cfg;;
  load "keymap" (Join (Dir c) "keymaps") (String.append (Keymap c) ".yaml")
       cfgKeyMap set_cfgKeyMap.

Definition GetUserID (c : Config) : string := UserID c.

(** A call on the room cache behind [config.Rooms]; the cache is updated in
    place, and a nil pointer is a runtime panic. *)
Definition onRooms {A}
    (call : RoomCache -> string -> World Bytes
            -> RoomCache * World Bytes * A) : M A :=
  fun s =>
    match Rooms (cfg s) with
    | None => Panic PanicNilDeref s
    | Some r =>
        let '(r', w, a) := call r (GetUserID (cfg s)) (world s) in
        Ret a (mkState (set_Rooms (Some r') (cfg s)) w)
    end.

Definition LoadAll : M unit :=
  Load;;
  modify_cfg (fun c => set_Rooms (Some (freshRooms c)) c);;
  LoadAuthCache;;
  LoadPushRules;;
  LoadPreferences;;
  err <- onRooms LoadList;;
  match err with
  | Some e => panic (PanicError e)
  | None => ret tt
  end.

Definition SaveAll : M unit :=
  Save;;
  SaveAuthCache;;
  SavePushRules;;
  SavePreferences;;
  err <- onRooms SaveList;;
  match err with
  | Some e => panic (PanicError e)
  | None =>
      onRooms (fun r u w => (SaveLoadedRooms r u w, tt))
  end.

Definition SaveFilterID (_ : string) (filterID : string) : M unit :=
  modify_cfg (set_FilterID filterID);;
  SaveAuthCache.

Definition LoadFilterID (_ : string) (c : Config) : string :=
  FilterID (cfgAuthCache c).

Definition SaveNextBatch (_ : string) (nextBatch : string) : M unit :=
  modify_cfg (set_NextBatch nextBatch);;
  SaveAuthCache.

Definition LoadNextBatch (_ : string) (c : Config) : string :=
  NextBatch (cfgAuthCache c).

(** The room-object accessors take a [*mautrix.Room] and an [id.RoomID];
    neither looks at its argument. *)
Definition SaveRoom {Room : Type} (_ : Room) : M unit :=
  panic (PanicString "SaveRoom is not supported").

Definition LoadRoom {Room : Type} (_ : string) : M Room :=
  panic (PanicString "LoadRoom is not supported").
End Operations.

(** ** A concrete environment

    One instance of the imported packages, used to run the model on concrete
    inputs.  A file holds either an encoded section, tagged with the format
    that wrote it, or bytes no codec accepts.  The room cache remembers what
    it was constructed with; its list file is optional on load, as for the
    sections. *)

Module Sample.
Inductive Format : Type := YAML | JSON.

Inductive Encoded : Type :=
  | EncAuthCache (a : AuthCache)
  | EncUserPreferences (p : UserPreferences)
  | EncKeyMap (k : KeyMap)
  | EncConfig (y : ConfigYAML)
  | EncPushRules (r : option (list string)).

Inductive Content : Type :=
  | Document (f : Format) (e : Encoded)
  | RoomList
  | Garbage.

Record Cache : Type := mkCache {
  listPath : path;
  statePath : path;
  capacity : Z;
  maxAge : Z;
}.

#[export] Instance externals : Externals :=
  {| Bytes := Content; PushRuleset := list string; RoomCache := Cache |}.

Definition malformed : error := CodecError "malformed".

Definition codec {V : Type} (f : Format) (enc : V -> Encoded)
    (dec : Encoded -> option V) : Codec Content V :=
  mkCodec
    (fun v => inl (Document f (enc v)))
    (fun data target =>
       match data with
       | Document f' e =>
           match f, f', dec e with
           | YAML, YAML, Some v | JSON, JSON, Some v => (v, None)
           | _, _, _ => (target, Some malformed)
           end
       | _ => (target, Some malformed)
       end).

Definition decAuthCache (e : Encoded) : option AuthCache :=
  match e with EncAuthCache a => Some a | _ => None end.
Definition decUserPreferences (e : Encoded) : option UserPreferences :=
  match e with EncUserPreferences p => Some p | _ => None end.
Definition decKeyMap (e : Encoded) : option KeyMap :=
  match e with EncKeyMap k => Some k | _ => None end.
Definition decConfig (e : Encoded) : option ConfigYAML :=
  match e with EncConfig y => Some y | _ => None end.
Definition decPushRules (e : Encoded) : option (option (list string)) :=
  match e with EncPushRules r => Some r | _ => None end.

Definition unsupported : Codec Content Config :=
  mkCodec (fun _ => inr (CodecError "unsupported"))
          (fun _ target => (target, Some (CodecError "unsupported"))).

Definition loadList (r : Cache) (_ : string) (w : World Content)
  : Cache * World Content * option error :=
  let '(w', res) := ioutil_ReadFile (listPath r) w in
  match res with
  | inl RoomList => (r, w', None)
  | inl _ => (r, w', Some (RoomCacheError "bad room list"))
  | inr e => (r, w', if IsNotExist e then None else Some e)
  end.

Definition saveList (r : Cache) (_ : string) (w : World Content)
  : Cache * World Content * option error :=
  let '(w', e) := ioutil_WriteFile (listPath r) RoomList w in (r, w', e).

#[export] Instance libs : Libs :=
  {| yaml_AuthCache := codec YAML EncAuthCache decAuthCache;
     yaml_UserPreferences := codec YAML EncUserPreferences decUserPreferences;
     yaml_KeyMap := codec YAML EncKeyMap decKeyMap;
     yaml_Config := codec YAML EncConfig decConfig;
     yaml_PushRules := codec YAML EncPushRules decPushRules;
     json_AuthCache := codec JSON EncAuthCache decAuthCache;
     json_UserPreferences := codec JSON EncUserPreferences decUserPreferences;
     json_KeyMap := codec JSON EncKeyMap decKeyMap;
     json_Config := unsupported;
     json_PushRules := codec JSON EncPushRules decPushRules;
     NewRoomCache := mkCache;
     LoadList := loadList;
     SaveList := saveList;
     SaveLoadedRooms := fun r _ w => (r, w) |}.

(** An aggregate as [NewConfig] builds it, and an empty file tree. *)
Definition config0 : Config :=
  NewConfig ["etc"; "gomuks"] ["var"; "data"] ["var"; "cache"] ["dl"].

Definition world0 : World Content := mkWorld ∅ [].

Definition state0 : State := mkState config0 world0.

(** A tree that already holds an auth-cache file and the room list. *)
Definition world1 : World Content :=
  mkWorld
    (<[ ["var"; "cache"; "auth-cache.yaml"] :=
          File (Document YAML (EncAuthCache (mkAuthCache "s1" "f1" true))) ]>
     (<[ ["var"; "cache"; "rooms.gob.gz"] := File RoomList ]>
      (<[ ["var"; "cache"] := Directory ]>
       (<[ ["var"] := Directory ]> ∅))))
    [].

(** A cache directory that holds bytes no codec accepts as auth cache. *)
Definition world_garbage : World Content :=
  mkWorld
    (<[ ["var"; "cache"; "auth-cache.yaml"] := File Garbage ]>
     (<[ ["var"; "cache"] := Directory ]>
      (<[ ["var"] := Directory ]> ∅)))
    [].

(** A directory where the auth-cache file should be. *)
Definition world_directory : World Content :=
  mkWorld
    (<[ ["var"; "cache"; "auth-cache.yaml"] := Directory ]>
     (<[ ["var"; "cache"] := Directory ]>
      (<[ ["var"] := Directory ]> ∅)))
    [].

(** A regular file where the directory [var] should be. *)
Definition world_blocked : World Content :=
  mkWorld (<[ ["var"] := File Garbage ]> ∅) [].

(** Settings as a [config.yaml] may hold them, and a tree with that file
    and a keymap file. *)
Definition settings1 : ConfigYAML :=
  mkConfigYAML "@u:example.org" "DEV" "token" "https://example.org" 8 30
               false true ["srv"; "data"] ["srv"; "cache"]
               ["srv"; "cache"; "history.db"] ["srv"; "cache"; "rooms.gob.gz"]
               ["srv"; "cache"; "media"] ["dl"] ["srv"; "cache"; "state"]
               "vim".

Definition keymap1 : KeyMap :=
  mkKeyMap "Esc" "Enter" "Ctrl+k" "Esc" "Down" "Up" "Enter" "Ctrl+Down"
           "Ctrl+Up" "Home" "End" "PgUp" "PgDn" "Esc" "Down" "Up" "Enter"
           "Alt+Enter" "Ctrl+c" "Enter" "Ctrl+l".

Definition world_config : World Content :=
  mkWorld
    (<[ ["etc"; "gomuks"; "keymaps"; "default.yaml"] :=
          File (Document YAML (EncKeyMap keymap1)) ]>
     (<[ ["etc"; "gomuks"; "keymaps"] := Directory ]>
      (<[ ["etc"; "gomuks"; "config.yaml"] :=
            File (Document YAML (EncConfig settings1)) ]>
       (<[ ["etc"; "gomuks"] := Directory ]>
        (<[ ["etc"] := Directory ]> ∅)))))
    [].

(** An aggregate that holds push rules. *)
Definition config_with_rules : Config :=
  set_PushRules (Some ["override"; "content"]) config0.

(** The state reached by setting a filter id on a new aggregate. *)
Definition state_with_filter : State :=
  final (SaveFilterID "@u:example.org" "abc123" state0).
End Sample.

(** ** Auxiliary notions used in the statements *)

Section TreeShape.
Context {B : Type}.

(** A well-formed tree: nothing is stored at the root, and whatever exists
    lies in a directory. *)
Definition well_formed (t : gmap path (node B)) : Prop :=
  map_Forall (λ q _, q ≠ [] ∧ is_dir_at t (parent q) = true) t.

(** A tree of directories only. *)
Definition no_files (t : gmap path (node B)) : Prop :=
  map_Forall (λ _ n, n = Directory) t.

(** The files [LoadAll] looks for below the cache directory: three
    sections and the room list. *)
Definition cache_files (cacheDir : path) : list path :=
  [ Join cacheDir "auth-cache.yaml"; Join cacheDir "pushrules.json";
    Join cacheDir "preferences.yaml"; Join cacheDir "rooms.gob.gz" ].

(** A tree of directories in which none of those files exists. *)
Definition cache_clean (cacheDir : path) (t : gmap path (node B)) : Prop :=
  no_files t ∧ Forall (λ p, t !! p = None) (cache_files cacheDir).

(** Fresh directories with no section files: the tree holds directories
    only, none of the files exists, and none of their locations is on the
    way to the config or data directory (which [LoadAll] creates). *)
Definition fresh_start (configDir dataDir cacheDir : path)
    (t : gmap path (node B)) : Prop :=
  no_files t
  ∧ t !! Join configDir "config.yaml" = None
  ∧ Forall (λ p, t !! p = None
                 ∧ ¬ p `prefix_of` configDir
                 ∧ ¬ p `prefix_of` dataDir)
           (cache_files cacheDir).
End TreeShape.

(** The operations of the aggregate, as data, so that statements can
    quantify over them. *)

Inductive SaveOp : Type :=
  | OpSave
  | OpSaveAuthCache
  | OpSavePreferences
  | OpSavePushRules
  | OpSaveFilterID (user filterID : string)
  | OpSaveNextBatch (user nextBatch : string).

Inductive Op : Type :=
  | OpClear
  | OpClearData
  | OpCreateCacheDirs
  | OpDeleteSession
  | OpLoadAll
  | OpLoad
  | OpSaveAll
  | OpLoadPreferences
  | OpLoadAuthCache
  | OpLoadPushRules
  | OpLoadKeymap
  | OpSaving (op : SaveOp)
  | OpSaveRoom
  | OpLoadRoom (room : string).

Inductive SectionId : Type :=
  | SecConfig
  | SecPreferences
  | SecAuthCache
  | SecPushRules
  | SecKeymap.

(** What the source does to the save-suppression flag, operation by
    operation: [Clear] ends with [config.nosave = true], [DeleteSession]
    resets it after its call to [Clear], nothing else assigns it. *)
Definition flag_after (op : Op) (flag : bool) : bool :=
  match op with
  | OpClear => true
  | OpDeleteSession => false
  | _ => flag
  end.

(** The panic message of the room-object accessors. *)
Definition UnsupportedOperation (method : string) : PanicValue :=
  PanicString (String.append method " is not supported").

Section Vocabulary.
Context `{Libs}.

Definition run_save (op : SaveOp) : M unit :=
  match op with
  | OpSave => Save
  | OpSaveAuthCache => SaveAuthCache
  | OpSavePreferences => SavePreferences
  | OpSavePushRules => SavePushRules
  | OpSaveFilterID u f => SaveFilterID u f
  | OpSaveNextBatch u n => SaveNextBatch u n
  end.

Fixpoint run_saves (ops : list SaveOp) : M unit :=
  match ops with
  | [] => ret tt
  | op :: ops' => run_save op;; run_saves ops'
  end.

Definition run (op : Op) : M unit :=
  match op with
  | OpClear => Clear
  | OpClearData => ClearData
  | OpCreateCacheDirs => CreateCacheDirs
  | OpDeleteSession => DeleteSession
  | OpLoadAll => LoadAll
  | OpLoad => Load
  | OpSaveAll => SaveAll
  | OpLoadPreferences => LoadPreferences
  | OpLoadAuthCache => LoadAuthCache
  | OpLoadPushRules => LoadPushRules
  | OpLoadKeymap => LoadKeymap
  | OpSaving op => run_save op
  | OpSaveRoom => SaveRoom tt
  | OpLoadRoom room => discard (LoadRoom (Room := unit) room)
  end.

(** The five sections, with the directory, the file and the loader the
    source gives each. *)
Definition section_dir (sec : SectionId) (c : Config) : path :=
  match sec with
  | SecConfig => Dir c
  | SecKeymap => Join (Dir c) "keymaps"
  | SecPreferences | SecAuthCache | SecPushRules => CacheDir c
  end.

Definition section_file (sec : SectionId) (c : Config) : string :=
  match sec with
  | SecConfig => "config.yaml"
  | SecPreferences => "preferences.yaml"
  | SecAuthCache => "auth-cache.yaml"
  | SecPushRules => "pushrules.json"
  | SecKeymap => String.append (Keymap c) ".yaml"
  end.

Definition section_path (sec : SectionId) (c : Config) : path :=
  Join (section_dir sec c) (section_file sec c).

Definition load_section (sec : SectionId) : M unit :=
  match sec with
  | SecConfig => Load
  | SecPreferences => LoadPreferences
  | SecAuthCache => LoadAuthCache
  | SecPushRules => LoadPushRules
  | SecKeymap => LoadKeymap
  end.

(** The load target of a section still holds what construction gave it:
    the zero value, or for the main settings the values of [NewConfig]. *)
Definition at_default (sec : SectionId) (c : Config) : Prop :=
  match sec with
  | SecConfig =>
      yaml_view c =
      yaml_view (NewConfig (Dir c) (DataDir c) (CacheDir c) (DownloadDir c))
  | SecPreferences => Preferences c = zeroUserPreferences
  | SecAuthCache => cfgAuthCache c = zeroAuthCache
  | SecPushRules => PushRules c = None
  | SecKeymap => cfgKeyMap c = zeroKeyMap
  end.

(** The codec step of [save] and of [load], under the names the round-trip
    property uses: the file name picks the codec. *)
Definition Encode {V} `{!Serializable V} (fileName : string) (v : V)
  : Bytes + error :=
  Marshal (codec_for fileName) v.

Definition Decode {V} `{!Serializable V} (fileName : string) (data : Bytes)
    (target : V) : V * option error :=
  Unmarshal (codec_for fileName) data target.

(** A library codec that reads back what it wrote, into any target. *)
Definition round_trips {V} (c : Codec Bytes V) : Prop :=
  ∀ (v : V) (data : Bytes) (target : V),
    Marshal c v = inl data → Unmarshal c data target = (v, None).

(** The zero value of [Config]. *)
Definition zeroConfig : Config :=
  mkConfig "" "" "" "" 0 0 false false [] [] [] [] [] [] [] [] ""
           zeroKeyMap zeroUserPreferences zeroAuthCache None None false.

(** The room cache treats a missing list file as an empty list. *)
Definition room_list_optional : Prop :=
  ∀ listPath stateDir size age user (w : World Bytes),
    no_files (fs w) →
    listPath ≠ [] →
    fs w !! listPath = None →
    (LoadList (NewRoomCache listPath stateDir size age) user w).2 = None.

Fixpoint run_all (ops : list Op) : M unit :=
  match ops with
  | [] => ret tt
  | op :: ops' => run op;; run_all ops'
  end.

(** A computation that leaves the save-suppression flag as it found it,
    whether it returns or panics. *)
Definition keeps_flag {A} (m : M A) : Prop :=
  ∀ s, nosave (cfg (final (m s))) = nosave (cfg s).

(** The in-memory effect of the two auth-cache setters. *)
Definition memory_effect (op : SaveOp) (c : Config) : Config :=
  match op with
  | OpSaveFilterID _ f => set_FilterID f c
  | OpSaveNextBatch _ n => set_NextBatch n c
  | _ => c
  end.
End Vocabulary.

(** What the lifecycle operations do to the tree, read off the call
    sequences of [ClearData]; [Clear] and of [CreateCacheDirs]. *)
Section LifecycleTree.
Context `{Externals}.

Definition removed (c : Config) (t : gmap path (node Bytes))
  : gmap path (node Bytes) :=
  let t1 := (fs_RemoveAll t (DataDir c)).1 in
  let t2 := (fs_Remove t1 (HistoryPath c)).1 in
  let t3 := (fs_Remove t2 (RoomListPath c)).1 in
  let t4 := (fs_RemoveAll t3 (StateDir c)).1 in
  let t5 := (fs_RemoveAll t4 (MediaDir c)).1 in
  (fs_RemoveAll t5 (CacheDir c)).1.

Definition created (c : Config) (t : gmap path (node Bytes))
  : gmap path (node Bytes) :=
  let t1 := (fs_MkdirAll t (CacheDir c)).1 in
  let t2 := (fs_MkdirAll t1 (DataDir c)).1 in
  let t3 := (fs_MkdirAll t2 (StateDir c)).1 in
  (fs_MkdirAll t3 (MediaDir c)).1.

(** An aggregate with its identity and server fields, its room cache and
    its flag blanked: what is left to compare with a fresh aggregate. *)
Definition forget_identity (c : Config) : Config :=
  mkConfig "" "" "" "" (RoomCacheSize c) (RoomCacheAge c) (NotifySound c)
           (SendToVerifiedOnly c) (Dir c) (DataDir c) (CacheDir c)
           (HistoryPath c) (RoomListPath c) (MediaDir c) (DownloadDir c)
           (StateDir c) (Keymap c) (cfgKeyMap c) (Preferences c)
           (cfgAuthCache c) None (PushRules c) false.

(** "The same state as a freshly constructed, never-loaded aggregate with
    the same roots", up to the blanked fields. *)
Definition like_fresh `{!Libs} (c : Config) : Prop :=
  forget_identity c =
  forget_identity (NewConfig (Dir c) (DataDir c) (CacheDir c)
                             (DownloadDir c)).

(** The directories [CreateCacheDirs] makes, and what can be observed of a
    state after [DeleteSession]: the aggregate, and which of those
    directories are present. *)
Definition cache_dirs (c : Config) : list path :=
  [CacheDir c; DataDir c; StateDir c; MediaDir c].

Definition dirs_present (c : Config) (t : gmap path (node Bytes))
  : list bool :=
  map (is_dir_at t) (cache_dirs c).

(** Whether [CreateCacheDirs] makes a directory at [q]: [q] is one of the
    four directories or above one, and nothing blocks that one. *)
Definition made (c : Config) (t : gmap path (node Bytes)) (q : path) : bool :=
  existsb (λ d, negb (blocked t d) && bool_decide (q ∈ ancestors d))
          (cache_dirs c).

(** No regular file is left where [ClearData] and [Clear] remove. *)
Definition file_free (c : Config) (t : gmap path (node Bytes)) : Prop :=
  is_file_at t (HistoryPath c) = false
  ∧ is_file_at t (RoomListPath c) = false
  ∧ ∀ d q, d ∈ [DataDir c; StateDir c; MediaDir c; CacheDir c] →
           d `prefix_of` q → is_file_at t q = false.

(** The in-memory part of [DeleteSession]. *)
Definition session_deleted `{!Libs} (c : Config) : Config :=
  set_nosave false
    (set_PushRules None
       (set_Rooms (Some (freshRooms c))
          (set_DeviceID ""
             (set_AccessToken ""
                (set_InitialSyncDone false (set_NextBatch "" c)))))).
End LifecycleTree.

(** * Facts about the file tree *)

Section FileSystemFacts.
Context {B : Type}.
Implicit Types (t : gmap path (node B)) (p q : path).

Lemma elem_of_ancestors_from (base rest q : path) :
  q ∈ ancestors_from base rest ↔
  ∃ k, k ≠ [] ∧ k `prefix_of` rest ∧ q = base ++ k.
Proof.
  revert base. induction rest as [|x rest IH]; intros base; simpl.
  - split.
    + intros Hin. inversion Hin.
    + intros (k & Hk & Hpre & _). apply prefix_nil_inv in Hpre. done.
  - rewrite elem_of_cons, IH. split.
    + intros [-> | (k & Hk & Hpre & ->)].
      * exists [x]. split; [done|]. split; [|done].
        by apply prefix_cons, prefix_nil.
      * exists (x :: k). split; [done|]. split; [by apply prefix_cons|].
        by rewrite <- app_assoc.
    + intros (k & Hk & Hpre & ->).
      destruct k as [|y k]; [done|].
      pose proof (prefix_cons_inv_1 _ _ _ _ Hpre) as ->.
      apply prefix_cons_inv_2 in Hpre.
      destruct k as [|z k]; [by left|].
      right. exists (z :: k). split; [done|]. split; [done|].
      by rewrite <- app_assoc.
Qed.

Lemma elem_of_ancestors (p q : path) :
  q ∈ ancestors p ↔ q ≠ [] ∧ q `prefix_of` p.
Proof.
  unfold ancestors. rewrite elem_of_ancestors_from. simpl. split.
  - by intros (k & Hk & Hpre & ->).
  - intros [Hq Hpre]. by exists q.
Qed.

Lemma self_in_ancestors (p : path) : p ≠ [] → p ∈ ancestors p.
Proof. intros. by apply elem_of_ancestors. Qed.

Lemma Join_not_prefix (dir : path) (name : string) :
  ¬ Join dir name `prefix_of` dir.
Proof.
  intros Hpre. apply prefix_length in Hpre. unfold Join in Hpre.
  rewrite length_app in Hpre. simpl in Hpre. lia.
Qed.

Lemma Join_not_ancestor (dir : path) (name : string) :
  Join dir name ∉ ancestors dir.
Proof.
  rewrite elem_of_ancestors. intros [_ Hpre].
  by apply Join_not_prefix in Hpre.
Qed.

Lemma Join_nonempty (dir : path) (name : string) : Join dir name ≠ [].
Proof. unfold Join. by destruct dir. Qed.

Lemma prefix_snoc_inv (q dir : path) (x : string) :
  q `prefix_of` dir ++ [x] → q = dir ++ [x] ∨ q `prefix_of` dir.
Proof.
  intros [k Hk]. destruct k as [|y k _] using rev_ind.
  - left. by rewrite app_nil_r in Hk.
  - right. rewrite app_assoc in Hk.
    apply app_inj_tail in Hk as [-> _]. by exists k.
Qed.

Lemma ancestors_Join (dir : path) (name : string) (q : path) :
  q ∈ ancestors (Join dir name) ↔ q ∈ ancestors dir ∨ q = Join dir name.
Proof.
  rewrite !elem_of_ancestors. unfold Join. split.
  - intros [Hq Hpre]. apply prefix_snoc_inv in Hpre as [-> | Hpre].
    + by right.
    + by left.
  - intros [[Hq Hpre] | ->].
    + split; [done|]. by apply prefix_app_r.
    + split; [by destruct dir|done].
Qed.

Lemma lookup_mkdirs t (l : list path) q :
  foldr mkdir1 t l !! q =
  match t !! q with
  | Some n => Some n
  | None => if decide (q ∈ l) then Some Directory else None
  end.
Proof.
  induction l as [|a l IH].
  - change (foldr mkdir1 t []) with t. destruct (t !! q); [done|].
    destruct (decide (q ∈ [])) as [Hin|]; [|done].
    by apply elem_of_nil in Hin.
  - change (foldr mkdir1 t (a :: l)) with (mkdir1 a (foldr mkdir1 t l)).
    unfold mkdir1 at 1.
    destruct (foldr mkdir1 t l !! a) as [n|] eqn:Ha.
    + rewrite IH. destruct (t !! q) as [m|] eqn:Hq; [done|].
      destruct (decide (q = a)) as [->|Hne].
      * rewrite IH in Ha.
        destruct (decide (a ∈ l)); [|done].
        destruct (decide (a ∈ a :: l)) as [|Hn]; [done|].
        exfalso. apply Hn, elem_of_cons. by left.
      * destruct (decide (q ∈ l)) as [Hin|Hnin];
          destruct (decide (q ∈ a :: l)) as [Hin'|Hnin']; try done.
        -- exfalso. apply Hnin', elem_of_cons. by right.
        -- apply elem_of_cons in Hin' as [?|?]; done.
    + destruct (decide (q = a)) as [->|Hne].
      * rewrite lookup_insert_eq. rewrite IH in Ha.
        destruct (t !! a); [done|].
        destruct (decide (a ∈ a :: l)) as [|Hn]; [done|].
        exfalso. apply Hn, elem_of_cons. by left.
      * rewrite lookup_insert_ne by done. rewrite IH.
        destruct (t !! q); [done|].
        destruct (decide (q ∈ l)) as [Hin|Hnin];
          destruct (decide (q ∈ a :: l)) as [Hin'|Hnin']; try done.
        -- exfalso. apply Hnin', elem_of_cons. by right.
        -- apply elem_of_cons in Hin' as [?|?]; done.
Qed.

Lemma is_file_at_mkdirs t (l : list path) q :
  is_file_at (foldr mkdir1 t l) q = is_file_at t q.
Proof.
  unfold is_file_at. rewrite lookup_mkdirs.
  destruct (t !! q); [done|]. by destruct (decide (q ∈ l)).
Qed.

Lemma blocked_false t p :
  blocked t p = false ↔ ∀ q, q ∈ ancestors p → is_file_at t q = false.
Proof.
  unfold blocked. rewrite <- not_true_iff_false, existsb_exists. split.
  - intros Hno q Hq. apply not_true_iff_false. intros Hf.
    apply Hno. exists q. split; [by apply list_elem_of_In|done].
  - intros Hall (q & Hq & Hf). apply list_elem_of_In in Hq.
    by rewrite (Hall q Hq) in Hf.
Qed.

Lemma blocked_ext t t' p :
  (∀ q, is_file_at t' q = is_file_at t q) → blocked t' p = blocked t p.
Proof.
  intros Hext. unfold blocked. induction (ancestors p) as [|a l IH]; simpl;
    [done|]. by rewrite Hext, IH.
Qed.

Lemma is_file_at_MkdirAll t p q :
  is_file_at (fs_MkdirAll t p).1 q = is_file_at t q.
Proof.
  unfold fs_MkdirAll. destruct (blocked t p); simpl; [done|].
  apply is_file_at_mkdirs.
Qed.

Lemma blocked_MkdirAll t p q :
  blocked (fs_MkdirAll t p).1 q = blocked t q.
Proof. apply blocked_ext. intros. apply is_file_at_MkdirAll. Qed.

Lemma fs_MkdirAll_ok t p :
  blocked t p = false →
  fs_MkdirAll t p = (foldr mkdir1 t (ancestors p), None).
Proof. intros Hb. unfold fs_MkdirAll. by rewrite Hb. Qed.

Lemma is_dir_at_MkdirAll_self t p :
  blocked t p = false → is_dir_at (fs_MkdirAll t p).1 p = true.
Proof.
  intros Hb. rewrite fs_MkdirAll_ok by done. simpl.
  destruct p as [|x p]; [done|]. unfold is_dir_at.
  rewrite lookup_mkdirs.
  assert (Hself : x :: p ∈ ancestors (x :: p)) by by apply self_in_ancestors.
  pose proof (proj1 (blocked_false _ _) Hb _ Hself) as Hf.
  unfold is_file_at in Hf.
  revert Hf. destruct (lookup _ t) as [[d|]|]; [done|done|]. intros _.
  by destruct (decide _).
Qed.

Lemma is_dir_at_MkdirAll_mono t p q :
  is_dir_at t q = true → is_dir_at (fs_MkdirAll t p).1 q = true.
Proof.
  unfold fs_MkdirAll. destruct (blocked t p); simpl; [done|].
  destruct q as [|x q]; [done|]. unfold is_dir_at.
  rewrite lookup_mkdirs. by destruct (lookup _ t) as [[d|]|].
Qed.

Lemma lookup_MkdirAll_other t p q :
  q ∉ ancestors p → (fs_MkdirAll t p).1 !! q = t !! q.
Proof.
  intros Hq. unfold fs_MkdirAll. destruct (blocked t p); simpl; [done|].
  rewrite lookup_mkdirs. destruct (t !! q); [done|].
  by destruct (decide (q ∈ ancestors p)).
Qed.

Lemma no_files_is_file_at t q : no_files t → is_file_at t q = false.
Proof.
  intros Hno. unfold is_file_at.
  destruct (t !! q) as [n|] eqn:Hq; [|done].
  by rewrite (Hno q n Hq).
Qed.

Lemma no_files_blocked t p : no_files t → blocked t p = false.
Proof. intros Hno. apply blocked_false. intros. by apply no_files_is_file_at. Qed.

Lemma no_files_mkdirs t (l : list path) :
  no_files t → no_files (foldr mkdir1 t l).
Proof.
  intros Hno q n. rewrite lookup_mkdirs.
  destruct (t !! q) as [m|] eqn:Hq.
  - intros [= <-]. by apply (Hno q).
  - destruct (decide (q ∈ l)); [by intros [= <-]|done].
Qed.

Lemma no_files_MkdirAll t p : no_files t → no_files (fs_MkdirAll t p).1.
Proof.
  intros Hno. unfold fs_MkdirAll. destruct (blocked t p); [done|].
  by apply no_files_mkdirs.
Qed.

Lemma lookup_mkdirs_None t (l : list path) q :
  t !! q = None → q ∉ l → foldr mkdir1 t l !! q = None.
Proof.
  intros Hq Hl. rewrite lookup_mkdirs, Hq. by destruct (decide (q ∈ l)).
Qed.

Lemma lookup_MkdirAll_None t p q :
  t !! q = None → ¬ q `prefix_of` p → (fs_MkdirAll t p).1 !! q = None.
Proof.
  intros Hq Hpre. rewrite lookup_MkdirAll_other; [done|].
  rewrite elem_of_ancestors. by intros [_ ?].
Qed.

Lemma fs_ReadFile_absent t p :
  p ≠ [] → t !! p = None → blocked t p = false →
  fs_ReadFile t p = inr ENOENT.
Proof.
  intros Hp Hnone Hb. unfold fs_ReadFile. destruct p as [|x p]; [done|].
  by rewrite Hnone, Hb.
Qed.

Lemma Join_inj (dir : path) (a b : string) :
  Join dir a = Join dir b → a = b.
Proof. unfold Join. intros Heq. by apply app_inj_tail in Heq as [_ ?]. Qed.

Lemma Join_prefix_Join (dir : path) (a b : string) :
  Join dir a `prefix_of` Join dir b → a = b.
Proof.
  intros Hpre. apply prefix_snoc_inv in Hpre as [Heq | Hpre].
  - by apply Join_inj in Heq.
  - by apply Join_not_prefix in Hpre.
Qed.
End FileSystemFacts.

(** * File-name suffixes *)

Lemma chars_append (a b : string) :
  chars (String.append a b) = chars a ++ chars b.
Proof.
  unfold chars. induction a as [|x a IH]; simpl; [done|]. f_equal. exact IH.
Qed.

Lemma HasSuffix_append (name suffix : string) :
  HasSuffix (String.append name suffix) suffix = true.
Proof.
  unfold HasSuffix, has_prefix_b. rewrite chars_append, reverse_app.
  apply bool_decide_eq_true. apply take_app_length.
Qed.

(** * Removal, and well-formed trees *)

Section RemovalFacts.
Context {B : Type}.
Implicit Types (t : gmap path (node B)) (p q : path).

Lemma lookup_RemoveAll t p q :
  (fs_RemoveAll t p).1 !! q = if decide (p `prefix_of` q) then None else t !! q.
Proof.
  unfold fs_RemoveAll. cbn [fst]. destruct (decide (p `prefix_of` q)) as [Hpre|Hpre].
  - apply map_lookup_filter_None. right. intros x _ Hkeep. by apply Hkeep.
  - destruct (t !! q) as [n|] eqn:Hq.
    + by apply map_lookup_filter_Some.
    + apply map_lookup_filter_None. by left.
Qed.

Lemma is_file_at_RemoveAll t p q :
  is_file_at (fs_RemoveAll t p).1 q =
  if decide (p `prefix_of` q) then false else is_file_at t q.
Proof.
  unfold is_file_at. rewrite lookup_RemoveAll.
  by destruct (decide (p `prefix_of` q)).
Qed.

(** [os.Remove] either changes nothing or deletes the one entry. *)
Lemma fs_Remove_cases t p :
  (fs_Remove t p).1 = t
  ∨ (fs_Remove t p).1 = delete p t
    ∧ (is_file_at t p = true
       ∨ t !! p = Some Directory ∧ has_children t p = false).
Proof.
  unfold fs_Remove, is_file_at. destruct p as [|x p]; [by left|].
  destruct (lookup _ t) as [[d|]|] eqn:Hp; cbn [fst].
  - right. split; [done|by left].
  - destruct (has_children t (x :: p)) eqn:Hc; cbn [fst]; [by left|right].
    split; [done|by right].
  - by left.
Qed.

Lemma is_file_at_Remove_mono t p q :
  is_file_at (fs_Remove t p).1 q = true → is_file_at t q = true.
Proof.
  destruct (fs_Remove_cases t p) as [-> | [-> _]]; [done|].
  unfold is_file_at. destruct (decide (q = p)) as [->|Hne].
  - by rewrite lookup_delete_eq.
  - by rewrite lookup_delete_ne.
Qed.

Lemma is_file_at_Remove_other t p q :
  is_file_at t p = false →
  is_file_at (fs_Remove t p).1 q = is_file_at t q.
Proof.
  intros Hp. destruct (fs_Remove_cases t p) as [-> | [-> Hwhy]]; [done|].
  destruct Hwhy as [Hfile | [Hdir _]]; [by rewrite Hp in Hfile|].
  unfold is_file_at. destruct (decide (q = p)) as [->|Hne].
  - by rewrite lookup_delete_eq, Hdir.
  - by rewrite lookup_delete_ne.
Qed.

Lemma well_formed_root t : well_formed t → t !! [] = None.
Proof.
  intros Hwf. destruct (t !! []) as [n|] eqn:Hroot; [|done].
  by destruct (Hwf [] n Hroot).
Qed.

Lemma is_file_at_Remove_self t p :
  well_formed t → is_file_at (fs_Remove t p).1 p = false.
Proof.
  intros Hwf. unfold fs_Remove, is_file_at. destruct p as [|x p].
  - cbn [fst]. by rewrite well_formed_root.
  - destruct (lookup _ t) as [[d|]|] eqn:Hp; cbn [fst].
    + by rewrite lookup_delete_eq.
    + destruct (has_children t (x :: p)); cbn [fst].
      * by rewrite Hp.
      * by rewrite lookup_delete_eq.
    + by rewrite Hp.
Qed.

Lemma parent_snoc p (x : string) : parent (p ++ [x]) = p.
Proof. unfold parent. apply removelast_last. Qed.

Lemma parent_prefix q : parent q `prefix_of` q.
Proof.
  destruct q as [|y q _] using rev_ind; [done|].
  rewrite parent_snoc. by apply prefix_app_r.
Qed.

Lemma parent_proper q : q ≠ [] → parent q ≠ q.
Proof.
  destruct q as [|y q _] using rev_ind; [done|]. intros _.
  rewrite parent_snoc. intros Heq.
  apply (f_equal length) in Heq. rewrite length_app in Heq. simpl in Heq. lia.
Qed.

Lemma has_children_false t p q n :
  has_children t p = false → t !! q = Some n → p `prefix_of` q → q = p.
Proof.
  unfold has_children. intros Hc Hq Hpre.
  apply bool_decide_eq_false in Hc.
  destruct (decide (q = p)) as [|Hne]; [done|].
  exfalso. apply Hc. exists q, n. split; [done|]. split; [|done].
  by intros ->.
Qed.

Lemma well_formed_MkdirAll t p :
  well_formed t → well_formed (fs_MkdirAll t p).1.
Proof.
  intros Hwf. destruct (blocked t p) eqn:Hb.
  { unfold fs_MkdirAll. by rewrite Hb. }
  intros q n Hq.
  assert (Hq' : t !! q = Some n ∨ (t !! q = None ∧ q ∈ ancestors p)).
  { rewrite fs_MkdirAll_ok in Hq by done. cbn [fst] in Hq.
    rewrite lookup_mkdirs in Hq. revert Hq.
    destruct (t !! q) as [m|]; intros Hq; [by left|].
    right. split; [done|]. by destruct (decide (q ∈ ancestors p)). }
  destruct Hq' as [Hold | [Hnew Hin]].
  - destruct (Hwf q n Hold) as [Hne Hpar]. split; [done|].
    by apply is_dir_at_MkdirAll_mono.
  - apply elem_of_ancestors in Hin as [Hne Hpre]. split; [done|].
    destruct (parent q) as [|y r] eqn:Hparent; [done|].
    assert (Hanc : y :: r ∈ ancestors p).
    { apply elem_of_ancestors. split; [done|].
      rewrite <- Hparent. etrans; [apply parent_prefix|done]. }
    rewrite fs_MkdirAll_ok by done. cbn [fst]. unfold is_dir_at.
    rewrite lookup_mkdirs.
    pose proof (proj1 (blocked_false _ _) Hb _ Hanc) as Hfile.
    unfold is_file_at in Hfile.
    destruct (t !! (y :: r)) as [[d|]|]; [done|done|].
    by destruct (decide (y :: r ∈ ancestors p)).
Qed.

Lemma well_formed_RemoveAll t p :
  well_formed t → well_formed (fs_RemoveAll t p).1.
Proof.
  intros Hwf q n Hq. rewrite lookup_RemoveAll in Hq.
  destruct (decide (p `prefix_of` q)) as [|Hpre]; [done|].
  destruct (Hwf q n Hq) as [Hne Hpar]. split; [done|].
  destruct (parent q) as [|y r] eqn:Hparent; [done|].
  unfold is_dir_at in *. rewrite lookup_RemoveAll.
  destruct (decide (p `prefix_of` y :: r)) as [Hbad|]; [|done].
  exfalso. apply Hpre. etrans; [exact Hbad|].
  rewrite <- Hparent. apply parent_prefix.
Qed.

Lemma well_formed_Remove t p :
  well_formed t → well_formed (fs_Remove t p).1.
Proof.
  intros Hwf. destruct (fs_Remove_cases t p) as [-> | [-> Hwhy]]; [done|].
  intros q n Hq. apply lookup_delete_Some in Hq as [Hne Hq].
  destruct (Hwf q n Hq) as [Hroot Hpar]. split; [done|].
  destruct (parent q) as [|y r] eqn:Hparent; [done|].
  unfold is_dir_at in *.
  destruct (decide (y :: r = p)) as [<-|Hother].
  - exfalso. destruct Hwhy as [Hfile | [_ Hc]].
    + unfold is_file_at in Hfile. by destruct (t !! (y :: r)) as [[d|]|].
    + assert (q = y :: r) as Heq.
      { eapply has_children_false; [exact Hc|exact Hq|].
        rewrite <- Hparent. apply parent_prefix. }
      rewrite <- Hparent in Heq. symmetry in Heq.
      by apply parent_proper in Heq.
  - by rewrite lookup_delete_ne.
Qed.

(** In a well-formed tree a directory has no regular file above it. *)
Lemma well_formed_dir_not_blocked t q :
  well_formed t → is_dir_at t q = true → blocked t q = false.
Proof.
  intros Hwf. induction q as [|x q IH] using rev_ind; intros Hdir; [done|].
  apply blocked_false. intros a Ha.
  assert (Hq : t !! (q ++ [x]) = Some Directory).
  { unfold is_dir_at in Hdir. destruct (q ++ [x]) eqn:Heq.
    - by destruct q.
    - by destruct (t !! (s :: l)) as [[d|]|]. }
  apply (ancestors_Join q x) in Ha as [Ha | ->].
  - destruct (Hwf _ _ Hq) as [_ Hpar]. rewrite parent_snoc in Hpar.
    by apply (proj1 (blocked_false _ _) (IH Hpar)).
  - unfold is_file_at, Join. by rewrite Hq.
Qed.
End RemovalFacts.

(** * Writing, and what creation and removal leave alone *)

Section WriteFacts.
Context {B : Type}.
Implicit Types (t : gmap path (node B)) (p q : path).

Lemma lookup_MkdirAll t p q :
  (fs_MkdirAll t p).1 !! q =
  match t !! q with
  | Some n => Some n
  | None =>
      if blocked t p then None
      else if decide (q ∈ ancestors p) then Some Directory else None
  end.
Proof.
  unfold fs_MkdirAll. destruct (blocked t p); cbn [fst].
  - by destruct (t !! q).
  - apply lookup_mkdirs.
Qed.

Lemma lookup_MkdirAll_Some t p q n :
  t !! q = Some n → (fs_MkdirAll t p).1 !! q = Some n.
Proof. intros Hq. by rewrite lookup_MkdirAll, Hq. Qed.

Lemma is_dir_at_mkdirs_self t p :
  blocked t p = false → is_dir_at (foldr mkdir1 t (ancestors p)) p = true.
Proof.
  intros Hb. pose proof (is_dir_at_MkdirAll_self t p Hb) as Hdir.
  by rewrite fs_MkdirAll_ok in Hdir.
Qed.

Lemma parent_Join (dir : path) (name : string) : parent (Join dir name) = dir.
Proof. apply parent_snoc. Qed.

Lemma is_dir_at_false t p :
  p ≠ [] → t !! p ≠ Some Directory → is_dir_at t p = false.
Proof.
  intros Hp Hq. unfold is_dir_at. destruct p as [|x p]; [done|].
  by destruct (t !! (x :: p)) as [[d|]|].
Qed.

Lemma is_dir_at_true t p :
  t !! p = Some Directory → is_dir_at t p = true.
Proof. intros Hq. unfold is_dir_at. destruct p; [done|]. by rewrite Hq. Qed.

(** Writing into an existing directory, where no directory has the file's
    name, creates or replaces the file. *)
Lemma fs_WriteFile_ok t (dir : path) (name : string) (data : B) :
  is_dir_at t dir = true →
  t !! Join dir name ≠ Some Directory →
  fs_WriteFile t (Join dir name) data
  = (<[Join dir name := File data]> t, None).
Proof.
  intros Hdir Hnot. unfold fs_WriteFile.
  rewrite (is_dir_at_false t (Join dir name)); [|apply Join_nonempty|done].
  rewrite parent_Join, Hdir.
  pose proof (Join_nonempty dir name). by destruct (Join dir name).
Qed.

Lemma fs_WriteFile_directory t p (data : B) :
  t !! p = Some Directory → fs_WriteFile t p data = (t, Some EISDIR).
Proof.
  intros Hq. unfold fs_WriteFile. destruct p as [|x p]; [done|].
  by rewrite (is_dir_at_true t (x :: p)).
Qed.

Lemma lookup_WriteFile_other t p q (data : B) :
  q ≠ p → (fs_WriteFile t p data).1 !! q = t !! q.
Proof.
  intros Hne. unfold fs_WriteFile. destruct p as [|x p]; [done|].
  destruct (is_dir_at t (x :: p)); [done|].
  destruct (is_dir_at t (parent (x :: p))); cbn [fst].
  - by rewrite lookup_insert_ne.
  - by destruct (blocked t (x :: p)).
Qed.

Lemma fs_ReadFile_file t p (data : B) :
  p ≠ [] → t !! p = Some (File data) → fs_ReadFile t p = inl data.
Proof.
  intros Hp Hq. unfold fs_ReadFile. destruct p as [|x p]; [done|].
  by rewrite Hq.
Qed.

Lemma fs_ReadFile_directory t p :
  t !! p = Some Directory → fs_ReadFile t p = inr EISDIR.
Proof.
  intros Hq. unfold fs_ReadFile. destruct p as [|x p]; by rewrite ?Hq.
Qed.

(** Removal never adds an entry. *)
Lemma lookup_Remove_Some t p q n :
  (fs_Remove t p).1 !! q = Some n → t !! q = Some n.
Proof.
  destruct (fs_Remove_cases t p) as [-> | [-> _]]; [done|].
  intros Hq. by apply lookup_delete_Some in Hq as [_ ?].
Qed.

Lemma lookup_Remove_other t p q :
  q ≠ p → (fs_Remove t p).1 !! q = t !! q.
Proof.
  intros Hne. destruct (fs_Remove_cases t p) as [-> | [-> _]]; [done|].
  by rewrite lookup_delete_ne.
Qed.

Lemma lookup_Remove_None t p q :
  t !! q = None → (fs_Remove t p).1 !! q = None.
Proof.
  intros Hq. destruct (fs_Remove_cases t p) as [-> | [-> _]]; [done|].
  apply lookup_delete_None. by right.
Qed.

Lemma lookup_RemoveAll_None t p q :
  t !! q = None → (fs_RemoveAll t p).1 !! q = None.
Proof.
  intros Hq. rewrite lookup_RemoveAll, Hq. by destruct (decide _).
Qed.

End WriteFacts.

(** * Facts about the control flow *)

Section MonadFacts.
Context `{Libs}.

Lemma bind_Ret {A C} (m : M A) (k : A → M C) s a s' :
  m s = Ret a s' → (x <- m;; k x) s = k a s'.
Proof. intros Hm. unfold bind. by rewrite Hm. Qed.

Lemma bind_Panic {A C} (m : M A) (k : A → M C) s v s' :
  m s = Panic v s' → (x <- m;; k x) s = Panic v s'.
Proof. intros Hm. unfold bind. by rewrite Hm. Qed.

Lemma bind_ext {A C} (m : M A) (k k' : A → M C) s :
  (∀ a s', m s = Ret a s' → k a s' = k' a s') →
  (x <- m;; k x) s = (x <- m;; k' x) s.
Proof. intros Hk. unfold bind. destruct (m s); [by apply Hk|done]. Qed.

Lemma get_cfg_bind {C} (k : Config → M C) s :
  (c <- get_cfg;; k c) s = k (cfg s) s.
Proof. done. Qed.

Lemma modify_cfg_bind {C} (f : Config → Config) (k : unit → M C) s :
  (x <- modify_cfg f;; k x) s = k tt (mkState (f (cfg s)) (world s)).
Proof. done. Qed.

Lemma os_eq {A} (call : World Bytes → World Bytes * A) s :
  os call s = Ret (call (world s)).2 (mkState (cfg s) (call (world s)).1).
Proof. unfold os. by destruct (call (world s)). Qed.

Lemma os_bind {A C} (call : World Bytes → World Bytes * A) (k : A → M C) s :
  (x <- os call;; k x) s =
  k (call (world s)).2 (mkState (cfg s) (call (world s)).1).
Proof. apply bind_Ret, os_eq. Qed.

Lemma discard_os_bind {A C} (call : World Bytes → World Bytes * A)
    (k : unit → M C) s :
  (x <- discard (os call);; k x) s =
  k tt (mkState (cfg s) (call (world s)).1).
Proof. unfold discard. apply bind_Ret. by rewrite os_bind. Qed.

Lemma discard_os_eq {A} (call : World Bytes → World Bytes * A) s :
  discard (os call) s = Ret tt (mkState (cfg s) (call (world s)).1).
Proof. unfold discard. by rewrite os_bind. Qed.

Lemma state_eta s : mkState (cfg s) (world s) = s.
Proof. by destruct s. Qed.

Lemma bind_assoc {A C D} (m : M A) (f : A → M C) (k : C → M D) s :
  (x <- (y <- m;; f y);; k x) s = (y <- m;; x <- f y;; k x) s.
Proof. unfold bind. by destruct (m s). Qed.

Lemma fs_os_MkdirAll p (w : World Bytes) :
  fs (os_MkdirAll p w).1 = (fs_MkdirAll (fs w) p).1.
Proof. unfold os_MkdirAll. by destruct (fs_MkdirAll (fs w) p). Qed.

Lemma fs_os_Remove p (w : World Bytes) :
  fs (os_Remove p w).1 = (fs_Remove (fs w) p).1.
Proof. unfold os_Remove. by destruct (fs_Remove (fs w) p). Qed.

Lemma fs_os_RemoveAll p (w : World Bytes) :
  fs (os_RemoveAll p w).1 = (fs_RemoveAll (fs w) p).1.
Proof. done. Qed.
End MonadFacts.

Ltac run_monad :=
  repeat (first
            [ rewrite bind_assoc
            | rewrite get_cfg_bind
            | rewrite modify_cfg_bind
            | rewrite discard_os_bind
            | rewrite discard_os_eq
            | rewrite os_bind ];
          cbn [cfg world]).

(** The same on an aggregate given field by field: projections of assigned
    aggregates are reduced as they appear. *)
Ltac simpl_cfg :=
  cbn [cfg world
       UserID DeviceID AccessToken HS RoomCacheSize RoomCacheAge NotifySound
       SendToVerifiedOnly Dir DataDir CacheDir HistoryPath RoomListPath
       MediaDir DownloadDir StateDir Keymap cfgKeyMap Preferences
       cfgAuthCache Rooms PushRules nosave
       NextBatch FilterID InitialSyncDone
       set_DeviceID set_AccessToken set_Rooms set_PushRules set_nosave
       set_cfgAuthCache set_Preferences set_cfgKeyMap
       set_NextBatch set_FilterID set_InitialSyncDone] in *.

Ltac run_cfg :=
  repeat (first
            [ rewrite bind_assoc
            | rewrite get_cfg_bind
            | rewrite modify_cfg_bind
            | rewrite discard_os_bind
            | rewrite discard_os_eq
            | rewrite os_bind ];
          simpl_cfg).

(** * The lifecycle operations *)

Section LifecycleFacts.
Context `{Libs}.

Lemma ClearData_eq s :
  ClearData s =
  Ret tt (mkState (cfg s) (os_RemoveAll (DataDir (cfg s)) (world s)).1).
Proof. unfold ClearData. by run_monad. Qed.

Lemma Clear_eq s :
  ∃ w, Clear s = Ret tt (mkState (set_nosave true (cfg s)) w) ∧
       fs w =
       (fs_RemoveAll
          (fs_RemoveAll
             (fs_RemoveAll
                (fs_Remove (fs_Remove (fs (world s)) (HistoryPath (cfg s))).1
                           (RoomListPath (cfg s))).1
                (StateDir (cfg s))).1
             (MediaDir (cfg s))).1
          (CacheDir (cfg s))).1.
Proof.
  unfold Clear. run_monad. eexists. split; [reflexivity|]. cbn [world].
  by rewrite !fs_os_RemoveAll, !fs_os_Remove.
Qed.

Lemma CreateCacheDirs_eq s :
  ∃ w, CreateCacheDirs s = Ret tt (mkState (cfg s) w) ∧
       fs w = created (cfg s) (fs (world s)).
Proof.
  unfold CreateCacheDirs. run_monad. eexists. split; [reflexivity|].
  cbn [world]. by rewrite !fs_os_MkdirAll.
Qed.

Lemma DeleteSession_eq s :
  ∃ w, DeleteSession s = Ret tt (mkState (session_deleted (cfg s)) w) ∧
       fs w = created (cfg s) (removed (cfg s) (fs (world s))).
Proof.
  destruct s as [c w]. destruct c.
  unfold DeleteSession, ClearData, Clear, CreateCacheDirs. run_cfg.
  eexists. split.
  - apply (f_equal (Ret tt)). apply (f_equal2 mkState).
    + vm_compute. reflexivity.
    + reflexivity.
  - cbn [world].
    by rewrite !fs_os_MkdirAll, !fs_os_RemoveAll, !fs_os_Remove.
Qed.
End LifecycleFacts.

(** * The section store: [load] and [save] *)

Section StoreFacts.
Context `{Libs}.

Lemma save_suppressed {V} `{!Serializable V} name dir file
    (source : Config → V) s :
  nosave (cfg s) = true → save name dir file source s = Ret tt s.
Proof. intros Hflag. unfold save. rewrite get_cfg_bind. by rewrite Hflag. Qed.

Lemma save_cfg {V} `{!Serializable V} name dir file (source : Config → V) s :
  cfg (final (save name dir file source s)) = cfg s.
Proof.
  unfold save. rewrite get_cfg_bind. destruct (nosave (cfg s)); [done|].
  rewrite os_bind. destruct (os_MkdirAll dir (world s)).2; [done|].
  rewrite get_cfg_bind. cbn [cfg].
  destruct (Marshal (codec_for file) (source (cfg s))); [|done].
  rewrite os_bind. by destruct (ioutil_WriteFile _ _ _).2.
Qed.

(** A missing file: the directory is created, the read reports
    [ENOENT], and [load] returns without touching the aggregate. *)
Lemma load_absent {V} `{!Serializable V} name dir file
    (target : Config → V) (assign : V → Config → Config) s :
  blocked (fs (world s)) dir = false →
  fs (world s) !! Join dir file = None →
  load name dir file target assign s =
  Ret tt (mkState (cfg s)
            (mkWorld (foldr mkdir1 (fs (world s)) (ancestors dir))
                     (trace (world s) ++ [SysMkdirAll dir] ++
                      [SysReadFile (Join dir file)]))).
Proof.
  intros Hdir Habsent. unfold load. rewrite os_bind.
  unfold os_MkdirAll at 1 2. rewrite fs_MkdirAll_ok by done. cbn [fst snd].
  rewrite os_bind. unfold ioutil_ReadFile, sys. cbn [fst snd world fs trace].
  assert (Hread : fs_ReadFile (foldr mkdir1 (fs (world s)) (ancestors dir))
                    (Join dir file) = inr ENOENT).
  { apply fs_ReadFile_absent.
    - apply Join_nonempty.
    - apply lookup_mkdirs_None; [done|apply Join_not_ancestor].
    - apply blocked_false. intros q Hq. rewrite is_file_at_mkdirs.
      apply ancestors_Join in Hq as [Hq | ->].
      + by apply (proj1 (blocked_false _ _) Hdir).
      + unfold is_file_at. by rewrite Habsent. }
  rewrite Hread. cbn [IsNotExist]. unfold ret.
  by rewrite <- app_assoc.
Qed.

Lemma codec_for_Config_nosave file data (c : Config) :
  nosave (Unmarshal (codec_for file) data c).1 = nosave c.
Proof.
  unfold codec_for. destruct (HasSuffix file ".yaml"); cbn.
  - by destruct (Unmarshal yaml_Config data (yaml_view c)).
  - by destruct (Unmarshal json_Config data c).
Qed.

Lemma keeps_ret {A} (a : A) : keeps_flag (ret a).
Proof. done. Qed.

Lemma keeps_panic {A} v : keeps_flag (panic (A := A) v).
Proof. done. Qed.

Lemma keeps_get_cfg : keeps_flag get_cfg.
Proof. done. Qed.

Lemma keeps_os {A} (call : World Bytes → World Bytes * A) :
  keeps_flag (os call).
Proof. intros s. by rewrite os_eq. Qed.

Lemma keeps_modify_cfg (f : Config → Config) :
  (∀ c, nosave (f c) = nosave c) → keeps_flag (modify_cfg f).
Proof. intros Hf s. apply Hf. Qed.

Lemma keeps_bind {A C} (m : M A) (k : A → M C) :
  keeps_flag m → (∀ a, keeps_flag (k a)) → keeps_flag (x <- m;; k x).
Proof.
  intros Hm Hk s. unfold bind. specialize (Hm s).
  destruct (m s) as [a s'|v s']; cbn [final] in *; [|done].
  by rewrite Hk.
Qed.

Lemma keeps_discard {A} (m : M A) : keeps_flag m → keeps_flag (discard m).
Proof. intros Hm. apply keeps_bind; [done|]. intros. apply keeps_ret. Qed.

Lemma keeps_onRooms {A}
    (call : RoomCache → string → World Bytes → RoomCache * World Bytes * A) :
  keeps_flag (onRooms call).
Proof.
  intros s. unfold onRooms. destruct (Rooms (cfg s)) as [r|]; [|done].
  by destruct (call r (GetUserID (cfg s)) (world s)) as [[r' w] a].
Qed.

Lemma keeps_save {V} `{!Serializable V} name dir file (source : Config → V) :
  keeps_flag (save name dir file source).
Proof. intros s. by rewrite save_cfg. Qed.

Lemma keeps_load {V} `{!Serializable V} name dir file
    (target : Config → V) (assign : V → Config → Config) :
  (∀ data c,
     nosave (assign (Unmarshal (codec_for file) data (target c)).1 c) =
     nosave c) →
  keeps_flag (load name dir file target assign).
Proof.
  intros Hassign. unfold load.
  apply keeps_bind; [apply keeps_os|]. intros [e|]; [apply keeps_panic|].
  apply keeps_bind; [apply keeps_os|]. intros [data|e].
  - intros s. rewrite get_cfg_bind.
    specialize (Hassign data (cfg s)).
    destruct (Unmarshal (codec_for file) data (target (cfg s))) as [v err].
    rewrite modify_cfg_bind. by destruct err.
  - destruct (IsNotExist e); [apply keeps_ret|apply keeps_panic].
Qed.
End StoreFacts.

(** * The outcomes of [load] and [save] *)

Section StoreOutcomes.
Context `{Libs}.

Lemma lookup_mkdirs_Join (t : gmap path (node Bytes)) (dir : path)
    (file : string) :
  foldr mkdir1 t (ancestors dir) !! Join dir file = t !! Join dir file.
Proof.
  rewrite lookup_mkdirs. destruct (t !! Join dir file); [done|].
  destruct (decide (Join dir file ∈ ancestors dir)) as [Hin|]; [|done].
  by apply Join_not_ancestor in Hin.
Qed.

(** A save that is not suppressed, into a directory that can be created,
    writes the encoding to the section's file. *)
Lemma save_writes {V} `{!Serializable V} name dir file
    (source : Config → V) s data :
  nosave (cfg s) = false →
  blocked (fs (world s)) dir = false →
  fs (world s) !! Join dir file ≠ Some Directory →
  Marshal (codec_for file) (source (cfg s)) = inl data →
  save name dir file source s =
  Ret tt (mkState (cfg s)
            (mkWorld (<[Join dir file := File data]>
                        (foldr mkdir1 (fs (world s)) (ancestors dir)))
                     (trace (world s) ++ [SysMkdirAll dir] ++
                      [SysWriteFile (Join dir file) data]))).
Proof.
  intros Hflag Hdir Hnot Henc. unfold save. rewrite get_cfg_bind, Hflag.
  rewrite os_bind. unfold os_MkdirAll at 1 2.
  rewrite fs_MkdirAll_ok by done. cbn [fst snd].
  rewrite get_cfg_bind. cbn [cfg]. rewrite Henc.
  rewrite os_bind. unfold ioutil_WriteFile, sys. cbn [world fs trace].
  rewrite fs_WriteFile_ok.
  - cbn [fst snd]. unfold ret. by rewrite <- app_assoc.
  - by apply is_dir_at_mkdirs_self.
  - by rewrite lookup_mkdirs_Join.
Qed.

(** A load that finds its file decodes it into the target; a decoding
    error is a panic, with the target as the codec left it. *)
Lemma load_present {V} `{!Serializable V} name dir file
    (target : Config → V) (assign : V → Config → Config) s data :
  blocked (fs (world s)) dir = false →
  fs (world s) !! Join dir file = Some (File data) →
  load name dir file target assign s =
  let decoded := Unmarshal (codec_for file) data (target (cfg s)) in
  let s' := mkState (assign decoded.1 (cfg s))
              (mkWorld (foldr mkdir1 (fs (world s)) (ancestors dir))
                       (trace (world s) ++ [SysMkdirAll dir] ++
                        [SysReadFile (Join dir file)])) in
  match decoded.2 with
  | Some e => Panic (PanicError e) s'
  | None => Ret tt s'
  end.
Proof.
  intros Hdir Hfile. unfold load. rewrite os_bind.
  unfold os_MkdirAll at 1 2. rewrite fs_MkdirAll_ok by done. cbn [fst snd].
  rewrite os_bind. unfold ioutil_ReadFile, sys. cbn [fst snd world fs trace].
  rewrite (fs_ReadFile_file _ _ data);
    [|apply Join_nonempty|by rewrite lookup_mkdirs_Join].
  rewrite get_cfg_bind. cbn [cfg].
  destruct (Unmarshal (codec_for file) data (target (cfg s))) as [v err].
  rewrite modify_cfg_bind. cbn [cfg world fst snd].
  rewrite <- app_assoc. by destruct err.
Qed.

Lemma load_blocked {V} `{!Serializable V} name dir file
    (target : Config → V) (assign : V → Config → Config) s :
  blocked (fs (world s)) dir = true →
  load name dir file target assign s =
  Panic (PanicError ENOTDIR)
        (mkState (cfg s)
           (mkWorld (fs (world s)) (trace (world s) ++ [SysMkdirAll dir]))).
Proof.
  intros Hb. unfold load. rewrite os_bind. unfold os_MkdirAll, fs_MkdirAll.
  by rewrite Hb.
Qed.

Lemma save_blocked {V} `{!Serializable V} name dir file
    (source : Config → V) s :
  nosave (cfg s) = false →
  blocked (fs (world s)) dir = true →
  save name dir file source s =
  Panic (PanicError ENOTDIR)
        (mkState (cfg s)
           (mkWorld (fs (world s)) (trace (world s) ++ [SysMkdirAll dir]))).
Proof.
  intros Hflag Hb. unfold save. rewrite get_cfg_bind, Hflag, os_bind.
  unfold os_MkdirAll, fs_MkdirAll. by rewrite Hb.
Qed.

Lemma load_directory {V} `{!Serializable V} name dir file
    (target : Config → V) (assign : V → Config → Config) s :
  blocked (fs (world s)) dir = false →
  fs (world s) !! Join dir file = Some Directory →
  load name dir file target assign s =
  Panic (PanicError EISDIR)
        (mkState (cfg s)
           (mkWorld (foldr mkdir1 (fs (world s)) (ancestors dir))
                    (trace (world s) ++ [SysMkdirAll dir] ++
                     [SysReadFile (Join dir file)]))).
Proof.
  intros Hdir Hfile. unfold load. rewrite os_bind.
  unfold os_MkdirAll at 1 2. rewrite fs_MkdirAll_ok by done. cbn [fst snd].
  rewrite os_bind. unfold ioutil_ReadFile, sys. cbn [fst snd world fs trace].
  rewrite fs_ReadFile_directory by by rewrite lookup_mkdirs_Join.
  cbn [IsNotExist]. unfold panic. by rewrite <- app_assoc.
Qed.
End StoreOutcomes.

(** * The save-suppression flag *)

Section FlagFacts.
Context `{Libs}.

Lemma nosave_set_NextBatch v (c : Config) :
  nosave (set_NextBatch v c) = nosave c.
Proof. done. Qed.

Lemma nosave_set_FilterID v (c : Config) :
  nosave (set_FilterID v c) = nosave c.
Proof. done. Qed.

Lemma keeps_CreateCacheDirs : keeps_flag CreateCacheDirs.
Proof.
  intros s. destruct (CreateCacheDirs_eq s) as (w & Heq & _). by rewrite Heq.
Qed.

Lemma keeps_run_save op : keeps_flag (run_save op).
Proof.
  destruct op; cbn [run_save];
    unfold Save, SaveAuthCache, SavePreferences, SavePushRules,
      SaveFilterID, SaveNextBatch.
  - apply keeps_bind; [apply keeps_get_cfg|]. intros. apply keeps_save.
  - apply keeps_bind; [apply keeps_get_cfg|]. intros. apply keeps_save.
  - apply keeps_bind; [apply keeps_get_cfg|]. intros. apply keeps_save.
  - apply keeps_bind; [apply keeps_get_cfg|]. intros c.
    destruct (PushRules c); [apply keeps_save|apply keeps_ret].
  - apply keeps_bind; [by apply keeps_modify_cfg|]. intros.
    apply keeps_bind; [apply keeps_get_cfg|]. intros. apply keeps_save.
  - apply keeps_bind; [by apply keeps_modify_cfg|]. intros.
    apply keeps_bind; [apply keeps_get_cfg|]. intros. apply keeps_save.
Qed.

Lemma keeps_section_load {V} `{!Serializable V} name dir file
    (target : Config → V) (assign : V → Config → Config) :
  (∀ v c, nosave (assign v c) = nosave c) →
  keeps_flag (load name dir file target assign).
Proof. intros Hassign. apply keeps_load. intros. apply Hassign. Qed.

Lemma keeps_Load : keeps_flag Load.
Proof.
  unfold Load. apply keeps_bind; [apply keeps_get_cfg|]. intros c.
  apply keeps_bind; [|intros; apply keeps_CreateCacheDirs].
  apply keeps_load. intros data c'. apply codec_for_Config_nosave.
Qed.

Lemma keeps_LoadAuthCache : keeps_flag LoadAuthCache.
Proof.
  unfold LoadAuthCache. apply keeps_bind; [apply keeps_get_cfg|]. intros.
  by apply keeps_section_load.
Qed.

Lemma keeps_LoadPushRules : keeps_flag LoadPushRules.
Proof.
  unfold LoadPushRules. apply keeps_bind; [apply keeps_get_cfg|]. intros.
  by apply keeps_section_load.
Qed.

Lemma keeps_LoadPreferences : keeps_flag LoadPreferences.
Proof.
  unfold LoadPreferences. apply keeps_bind; [apply keeps_get_cfg|]. intros.
  by apply keeps_section_load.
Qed.

Lemma keeps_LoadKeymap : keeps_flag LoadKeymap.
Proof.
  unfold LoadKeymap. apply keeps_bind; [apply keeps_get_cfg|]. intros.
  by apply keeps_section_load.
Qed.

Lemma keeps_LoadAll : keeps_flag LoadAll.
Proof.
  unfold LoadAll.
  apply keeps_bind; [apply keeps_Load|]. intros.
  apply keeps_bind; [by apply keeps_modify_cfg|]. intros.
  apply keeps_bind; [apply keeps_LoadAuthCache|]. intros.
  apply keeps_bind; [apply keeps_LoadPushRules|]. intros.
  apply keeps_bind; [apply keeps_LoadPreferences|]. intros.
  apply keeps_bind; [apply keeps_onRooms|]. intros [e|].
  - apply keeps_panic.
  - apply keeps_ret.
Qed.

Lemma keeps_SaveAll : keeps_flag SaveAll.
Proof.
  unfold SaveAll.
  apply keeps_bind; [apply (keeps_run_save OpSave)|]. intros.
  apply keeps_bind; [apply (keeps_run_save OpSaveAuthCache)|]. intros.
  apply keeps_bind; [apply (keeps_run_save OpSavePushRules)|]. intros.
  apply keeps_bind; [apply (keeps_run_save OpSavePreferences)|]. intros.
  apply keeps_bind; [apply keeps_onRooms|]. intros [e|].
  - apply keeps_panic.
  - apply keeps_onRooms.
Qed.

Lemma Clear_sets_flag s : nosave (cfg (final (Clear s))) = true.
Proof. destruct (Clear_eq s) as (w & Heq & _). by rewrite Heq. Qed.

Lemma ClearData_keeps_flag s :
  nosave (cfg (final (ClearData s))) = nosave (cfg s).
Proof. by rewrite ClearData_eq. Qed.

Lemma DeleteSession_returns s : returned (DeleteSession s) = true.
Proof. destruct (DeleteSession_eq s) as (w & Heq & _). by rewrite Heq. Qed.

Lemma DeleteSession_clears_flag s :
  nosave (cfg (final (DeleteSession s))) = false.
Proof.
  destruct (DeleteSession_eq s) as (w & Heq & _). rewrite Heq.
  cbn [final cfg]. by destruct (cfg s).
Qed.

(** The flag after any one operation. *)
Lemma flag_after_run op s :
  nosave (cfg (final (run op s))) = flag_after op (nosave (cfg s)).
Proof.
  destruct op; cbn [run flag_after].
  - apply Clear_sets_flag.
  - apply ClearData_keeps_flag.
  - apply keeps_CreateCacheDirs.
  - apply DeleteSession_clears_flag.
  - apply keeps_LoadAll.
  - apply keeps_Load.
  - apply keeps_SaveAll.
  - apply keeps_LoadPreferences.
  - apply keeps_LoadAuthCache.
  - apply keeps_LoadPushRules.
  - apply keeps_LoadKeymap.
  - apply keeps_run_save.
  - done.
  - done.
Qed.

Lemma flag_set_run_all ops s :
  OpDeleteSession ∉ ops →
  nosave (cfg s) = true →
  nosave (cfg (final (run_all ops s))) = true.
Proof.
  revert s. induction ops as [|op ops IH]; intros s Hnot Hflag; [done|].
  cbn [run_all]. unfold bind.
  apply not_elem_of_cons in Hnot as [Hop Hnot].
  pose proof (flag_after_run op s) as Hstep.
  destruct (run op s) as [a s'|v s']; cbn [final] in *.
  - apply IH; [done|]. rewrite Hstep, Hflag. by destruct op.
  - rewrite Hstep, Hflag. by destruct op.
Qed.

(** Under suppression a save does nothing to the world; the two
    auth-cache setters still assign their field. *)
Lemma run_save_suppressed op s :
  nosave (cfg s) = true →
  run_save op s = Ret tt (mkState (memory_effect op (cfg s)) (world s)).
Proof.
  intros Hflag.
  destruct op; cbn [run_save memory_effect];
    unfold Save, SaveAuthCache, SavePreferences, SavePushRules,
      SaveFilterID, SaveNextBatch.
  - rewrite get_cfg_bind, save_suppressed by done. by destruct s.
  - rewrite get_cfg_bind, save_suppressed by done. by destruct s.
  - rewrite get_cfg_bind, save_suppressed by done. by destruct s.
  - rewrite get_cfg_bind. destruct (PushRules (cfg s)).
    + rewrite save_suppressed by done. by destruct s.
    + by destruct s.
  - rewrite modify_cfg_bind. unfold SaveAuthCache. rewrite get_cfg_bind.
    by rewrite save_suppressed.
  - rewrite modify_cfg_bind. unfold SaveAuthCache. rewrite get_cfg_bind.
    by rewrite save_suppressed.
Qed.
End FlagFacts.

(** * Deleting the session twice *)

Section SessionFacts.
Context `{Libs}.
Implicit Types (t : gmap path (node Bytes)) (c : Config).

Lemma is_file_at_created c t q :
  is_file_at (created c t) q = is_file_at t q.
Proof. unfold created. by rewrite !is_file_at_MkdirAll. Qed.

Lemma blocked_created c t q : blocked (created c t) q = blocked t q.
Proof. apply blocked_ext. intros. apply is_file_at_created. Qed.

Lemma well_formed_created c t : well_formed t → well_formed (created c t).
Proof. intros Hwf. unfold created. by repeat apply well_formed_MkdirAll. Qed.

Lemma well_formed_removed c t : well_formed t → well_formed (removed c t).
Proof.
  intros Hwf. unfold removed.
  by repeat first [apply well_formed_RemoveAll | apply well_formed_Remove].
Qed.

(** Each of the four directories is there after [CreateCacheDirs] exactly
    when no regular file stood in its way. *)
Lemma is_dir_at_created c t d :
  well_formed t → d ∈ cache_dirs c →
  is_dir_at (created c t) d = negb (blocked t d).
Proof.
  intros Hwf Hd. destruct (blocked t d) eqn:Hb; cbn [negb].
  - apply not_true_iff_false. intros Hdir.
    apply well_formed_dir_not_blocked in Hdir; [|by apply well_formed_created].
    rewrite blocked_created in Hdir. congruence.
  - unfold created, cache_dirs in *.
    rewrite !elem_of_cons, elem_of_nil in Hd.
    destruct Hd as [->|[->|[->|[->|[]]]]].
    + do 3 apply is_dir_at_MkdirAll_mono. by apply is_dir_at_MkdirAll_self.
    + do 2 apply is_dir_at_MkdirAll_mono. apply is_dir_at_MkdirAll_self.
      by rewrite blocked_MkdirAll.
    + apply is_dir_at_MkdirAll_mono. apply is_dir_at_MkdirAll_self.
      by rewrite !blocked_MkdirAll.
    + apply is_dir_at_MkdirAll_self. by rewrite !blocked_MkdirAll.
Qed.

Lemma is_file_at_RemoveAll_mono t p q :
  is_file_at (fs_RemoveAll t p).1 q = true → is_file_at t q = true.
Proof.
  rewrite is_file_at_RemoveAll. by destruct (decide (p `prefix_of` q)).
Qed.

Lemma is_file_at_removed_mono c t q :
  is_file_at (removed c t) q = true → is_file_at t q = true.
Proof.
  unfold removed. intros Hq.
  repeat first [apply is_file_at_RemoveAll_mono in Hq
               | apply is_file_at_Remove_mono in Hq].
  done.
Qed.

Lemma file_free_removed c t : well_formed t → file_free c (removed c t).
Proof.
  intros Hwf. unfold removed.
  set (t1 := (fs_RemoveAll t (DataDir c)).1).
  set (t2 := (fs_Remove t1 (HistoryPath c)).1).
  set (t3 := (fs_Remove t2 (RoomListPath c)).1).
  set (t4 := (fs_RemoveAll t3 (StateDir c)).1).
  set (t5 := (fs_RemoveAll t4 (MediaDir c)).1).
  assert (Hwf1 : well_formed t1) by by apply well_formed_RemoveAll.
  assert (Hwf2 : well_formed t2) by by apply well_formed_Remove.
  assert (H1 : ∀ q, DataDir c `prefix_of` q → is_file_at t1 q = false).
  { intros q Hpre. unfold t1. rewrite is_file_at_RemoveAll.
    by destruct (decide (DataDir c `prefix_of` q)). }
  assert (H2 : is_file_at t2 (HistoryPath c) = false)
    by by apply is_file_at_Remove_self.
  assert (H3 : is_file_at t3 (RoomListPath c) = false)
    by by apply is_file_at_Remove_self.
  assert (H4 : ∀ q, StateDir c `prefix_of` q → is_file_at t4 q = false).
  { intros q Hpre. unfold t4. rewrite is_file_at_RemoveAll.
    by destruct (decide (StateDir c `prefix_of` q)). }
  assert (H5 : ∀ q, MediaDir c `prefix_of` q → is_file_at t5 q = false).
  { intros q Hpre. unfold t5. rewrite is_file_at_RemoveAll.
    by destruct (decide (MediaDir c `prefix_of` q)). }
  assert (Hkeep : ∀ q, is_file_at (fs_RemoveAll t5 (CacheDir c)).1 q = true →
                       is_file_at t5 q = true ∧ is_file_at t4 q = true
                       ∧ is_file_at t3 q = true ∧ is_file_at t2 q = true
                       ∧ is_file_at t1 q = true).
  { intros q Hq.
    apply is_file_at_RemoveAll_mono in Hq as Hq5.
    apply is_file_at_RemoveAll_mono in Hq5 as Hq4.
    apply is_file_at_RemoveAll_mono in Hq4 as Hq3.
    apply is_file_at_Remove_mono in Hq3 as Hq2.
    apply is_file_at_Remove_mono in Hq2 as Hq1. done. }
  split; [|split].
  - apply not_true_iff_false. intros Hq.
    apply Hkeep in Hq as (_ & _ & _ & Hq & _). congruence.
  - apply not_true_iff_false. intros Hq.
    apply Hkeep in Hq as (_ & _ & Hq & _ & _). congruence.
  - intros d q Hd Hpre. apply not_true_iff_false. intros Hq.
    rewrite !elem_of_cons, elem_of_nil in Hd.
    destruct Hd as [->|[->|[->|[->|[]]]]].
    + apply Hkeep in Hq as (_ & _ & _ & _ & Hq).
      rewrite H1 in Hq by done. done.
    + apply Hkeep in Hq as (_ & Hq & _ & _ & _).
      rewrite H4 in Hq by done. done.
    + apply Hkeep in Hq as (Hq & _ & _ & _ & _).
      rewrite H5 in Hq by done. done.
    + rewrite is_file_at_RemoveAll in Hq.
      by destruct (decide (CacheDir c `prefix_of` q)).
Qed.

Lemma file_free_created c t : file_free c t → file_free c (created c t).
Proof.
  intros (Hh & Hr & Hd). unfold file_free.
  rewrite !is_file_at_created. split; [done|]. split; [done|].
  intros d q ? ?. rewrite is_file_at_created. by eapply Hd.
Qed.

(** Where nothing is left to remove, removing again loses no file. *)
Lemma is_file_at_removed_again c t q :
  file_free c t → is_file_at (removed c t) q = is_file_at t q.
Proof.
  intros (Hh & Hr & Hd). unfold removed.
  assert (Hall : ∀ t' d, (∀ q', is_file_at t' q' = is_file_at t q') →
                   d ∈ [DataDir c; StateDir c; MediaDir c; CacheDir c] →
                   ∀ q', is_file_at (fs_RemoveAll t' d).1 q' = is_file_at t q').
  { intros t' d Hsame Hin q'. rewrite is_file_at_RemoveAll.
    destruct (decide (d `prefix_of` q')); [|done].
    symmetry. by eapply Hd. }
  assert (Hone : ∀ t' p, (∀ q', is_file_at t' q' = is_file_at t q') →
                   is_file_at t p = false →
                   ∀ q', is_file_at (fs_Remove t' p).1 q' = is_file_at t q').
  { intros t' p Hsame Hp q'. rewrite is_file_at_Remove_other; [done|].
    by rewrite Hsame. }
  revert q.
  apply Hall; [|rewrite !elem_of_cons; tauto].
  apply Hall; [|rewrite !elem_of_cons; tauto].
  apply Hall; [|rewrite !elem_of_cons; tauto].
  apply Hone; [|done]. apply Hone; [|done].
  apply Hall; [done|rewrite !elem_of_cons; tauto].
Qed.

Lemma session_deleted_twice c :
  session_deleted (session_deleted c) = session_deleted c.
Proof. destruct c. vm_compute. reflexivity. Qed.

Lemma session_deleted_paths c :
  cache_dirs (session_deleted c) = cache_dirs c
  ∧ (∀ t, created (session_deleted c) t = created c t)
  ∧ (∀ t, removed (session_deleted c) t = removed c t).
Proof. by destruct c. Qed.

(** The directories present after a second [DeleteSession] are those
    present after the first. *)
Lemma dirs_present_again c t :
  well_formed t →
  dirs_present c (created c (removed c (created c (removed c t)))) =
  dirs_present c (created c (removed c t)).
Proof.
  intros Hwf. unfold dirs_present.
  apply map_ext_in. intros d Hd. apply list_elem_of_In in Hd.
  assert (Hwf1 : well_formed (removed c t)) by by apply well_formed_removed.
  assert (Hwf2 : well_formed (removed c (created c (removed c t))))
    by by apply well_formed_removed, well_formed_created.
  rewrite (is_dir_at_created c _ d Hwf2 Hd), (is_dir_at_created c _ d Hwf1 Hd).
  f_equal. rewrite <- (blocked_created c (removed c t) d).
  apply blocked_ext. intros q. apply is_file_at_removed_again.
  by apply file_free_created, file_free_removed.
Qed.
End SessionFacts.

(** * Creating the directories, and clearing *)

Section DirectoryFacts.
Context `{Libs}.
Implicit Types (t : gmap path (node Bytes)) (c : Config).

Lemma lookup_created c t q :
  created c t !! q =
  match t !! q with
  | Some n => Some n
  | None => if made c t q then Some Directory else None
  end.
Proof.
  unfold created, made, cache_dirs. rewrite !lookup_MkdirAll.
  rewrite !blocked_MkdirAll. cbn [existsb].
  destruct (t !! q) as [n|]; [done|].
  destruct (blocked t (CacheDir c)), (blocked t (DataDir c)),
    (blocked t (StateDir c)), (blocked t (MediaDir c)); cbn [negb andb orb];
    repeat (match goal with
            | |- context [decide (q ∈ ancestors ?d)] =>
                rewrite (decide_bool_decide (q ∈ ancestors d));
                destruct (bool_decide (q ∈ ancestors d))
            end; cbn [negb andb orb]);
    try reflexivity.
Qed.

Lemma made_created c t q : made c (created c t) q = made c t q.
Proof.
  unfold made, cache_dirs. cbn [existsb]. by rewrite !blocked_created.
Qed.

Lemma created_twice c t : created c (created c t) = created c t.
Proof.
  apply map_eq. intros q. rewrite (lookup_created c (created c t) q).
  destruct (created c t !! q) as [n|] eqn:Hq; [done|].
  rewrite made_created. rewrite lookup_created in Hq.
  destruct (t !! q); [done|]. by destruct (made c t q).
Qed.

Lemma lookup_created_Some c t q n :
  t !! q = Some n → created c t !! q = Some n.
Proof. intros Hq. by rewrite lookup_created, Hq. Qed.
End DirectoryFacts.

(** * Starting from fresh directories *)

Section FreshStart.
Context `{Libs}.

Lemma cache_clean_mkdirs (cacheDir : path) (t : gmap path (node Bytes))
    (d : path) :
  cache_clean cacheDir t →
  Forall (λ p, ¬ p `prefix_of` d) (cache_files cacheDir) →
  cache_clean cacheDir (foldr mkdir1 t (ancestors d)).
Proof.
  intros [Hno Habs] Hpre. split; [by apply no_files_mkdirs|].
  rewrite Forall_forall in *. intros p Hp.
  apply lookup_mkdirs_None; [by apply Habs|].
  rewrite elem_of_ancestors. intros [_ Hbad]. by apply (Hpre p Hp).
Qed.

Lemma cache_clean_MkdirAll (cacheDir : path) (t : gmap path (node Bytes))
    (d : path) :
  cache_clean cacheDir t →
  Forall (λ p, ¬ p `prefix_of` d) (cache_files cacheDir) →
  cache_clean cacheDir (fs_MkdirAll t d).1.
Proof.
  intros Hclean Hpre. rewrite fs_MkdirAll_ok.
  - by apply cache_clean_mkdirs.
  - apply no_files_blocked, Hclean.
Qed.

Lemma cache_files_off_cacheDir (cacheDir : path) :
  Forall (λ p, ¬ p `prefix_of` cacheDir) (cache_files cacheDir).
Proof. repeat constructor; apply Join_not_prefix. Qed.

Lemma cache_files_off_child (cacheDir : path) (name : string) :
  name ∉ ["auth-cache.yaml"; "pushrules.json"; "preferences.yaml";
          "rooms.gob.gz"] →
  Forall (λ p, ¬ p `prefix_of` Join cacheDir name) (cache_files cacheDir).
Proof.
  intros Hname. repeat constructor; intros Hpre;
    apply Join_prefix_Join in Hpre; subst name; apply Hname;
    repeat (first [apply elem_of_list_here_iff | idtac]);
    rewrite !elem_of_cons; tauto.
Qed.

Lemma Load_absent_eq s :
  blocked (fs (world s)) (Dir (cfg s)) = false →
  fs (world s) !! Join (Dir (cfg s)) "config.yaml" = None →
  ∃ w, Load s = Ret tt (mkState (cfg s) w) ∧
       fs w = created (cfg s)
                (foldr mkdir1 (fs (world s)) (ancestors (Dir (cfg s)))).
Proof.
  intros Hdir Habsent. unfold Load. rewrite get_cfg_bind.
  erewrite bind_Ret; [|by apply load_absent].
  match goal with
  | |- ∃ _, CreateCacheDirs ?s0 = _ ∧ _ =>
      destruct (CreateCacheDirs_eq s0) as (w & Heq & Hfs)
  end.
  exists w. split; [by rewrite Heq|]. by rewrite Hfs.
Qed.

(** A section below the cache directory, looked for in a clean tree. *)
Lemma load_cache_clean {V} `{!Serializable V} name (cacheDir : path) file
    (target : Config → V) (assign : V → Config → Config) s :
  cache_clean cacheDir (fs (world s)) →
  Join cacheDir file ∈ cache_files cacheDir →
  ∃ w, load name cacheDir file target assign s = Ret tt (mkState (cfg s) w)
       ∧ cache_clean cacheDir (fs w).
Proof.
  intros Hclean Hfile. eexists. split.
  - apply load_absent.
    + apply no_files_blocked, Hclean.
    + destruct Hclean as [_ Habs]. rewrite Forall_forall in Habs.
      by apply Habs.
  - cbn [fs]. apply cache_clean_mkdirs; [done|].
    apply cache_files_off_cacheDir.
Qed.
Lemma cache_clean_created (c : Config) (t : gmap path (node Bytes)) :
  cache_clean (CacheDir c) t →
  Forall (λ p, ¬ p `prefix_of` DataDir c) (cache_files (CacheDir c)) →
  StateDir c = Join (CacheDir c) "state" →
  MediaDir c = Join (CacheDir c) "media" →
  cache_clean (CacheDir c) (created c t).
Proof.
  intros Hclean Hdata Hstate Hmedia. unfold created. rewrite Hstate, Hmedia.
  apply cache_clean_MkdirAll; [|apply cache_files_off_child].
  - apply cache_clean_MkdirAll; [|apply cache_files_off_child].
    + apply cache_clean_MkdirAll; [|done].
      apply cache_clean_MkdirAll; [done|apply cache_files_off_cacheDir].
    + rewrite !elem_of_cons, elem_of_nil. intros [?|[?|[?|[?|[]]]]]; done.
  - rewrite !elem_of_cons, elem_of_nil. intros [?|[?|[?|[?|[]]]]]; done.
Qed.

Lemma cache_loaders_clean s :
  cache_clean (CacheDir (cfg s)) (fs (world s)) →
  (∃ w, LoadAuthCache s = Ret tt (mkState (cfg s) w)
        ∧ cache_clean (CacheDir (cfg s)) (fs w))
  ∧ (∃ w, LoadPushRules s = Ret tt (mkState (cfg s) w)
          ∧ cache_clean (CacheDir (cfg s)) (fs w))
  ∧ (∃ w, LoadPreferences s = Ret tt (mkState (cfg s) w)
          ∧ cache_clean (CacheDir (cfg s)) (fs w)).
Proof.
  intros Hclean. unfold LoadAuthCache, LoadPushRules, LoadPreferences.
  rewrite !get_cfg_bind. unfold cache_files.
  split; [|split]; apply load_cache_clean; try done;
    unfold cache_files; rewrite !elem_of_cons; tauto.
Qed.

Lemma set_Rooms_twice (r r' : option RoomCache) (c : Config) :
  set_Rooms r (set_Rooms r' c) = set_Rooms r c.
Proof. by destruct c. Qed.

(** [LoadAll] on an aggregate with the cache layout of [NewConfig], in
    fresh directories: only the room cache changes. *)
Lemma LoadAll_fresh s :
  fresh_start (Dir (cfg s)) (DataDir (cfg s)) (CacheDir (cfg s))
              (fs (world s)) →
  StateDir (cfg s) = Join (CacheDir (cfg s)) "state" →
  MediaDir (cfg s) = Join (CacheDir (cfg s)) "media" →
  RoomListPath (cfg s) = Join (CacheDir (cfg s)) "rooms.gob.gz" →
  room_list_optional →
  ∃ r w, LoadAll s = Ret tt (mkState (set_Rooms (Some r) (cfg s)) w).
Proof.
  intros (Hno & Hcfg & Hfiles) Hstate Hmedia Hlist Hrooms.
  destruct (Load_absent_eq s) as (w1 & HLoad & Hfs1);
    [by apply no_files_blocked|done|].
  assert (Hclean1 : cache_clean (CacheDir (cfg s)) (fs w1)).
  { rewrite Hfs1. apply cache_clean_created; [|  |done|done].
    - apply cache_clean_mkdirs.
      + split; [done|]. eapply Forall_impl; [exact Hfiles|]. by intros p [? _].
      + eapply Forall_impl; [exact Hfiles|]. by intros p (_ & ? & _).
    - eapply Forall_impl; [exact Hfiles|]. by intros p (_ & _ & ?). }
  unfold LoadAll. rewrite (bind_Ret _ _ _ _ _ HLoad), modify_cfg_bind.
  cbn [cfg world].
  remember (set_Rooms (Some (freshRooms (cfg s))) (cfg s)) as c2 eqn:Hc2.
  assert (Hcache : CacheDir c2 = CacheDir (cfg s)) by by rewrite Hc2.
  assert (HR : Rooms c2 = Some (freshRooms (cfg s))) by by rewrite Hc2.
  destruct (cache_loaders_clean (mkState c2 w1)) as (Hauth & _ & _);
    [cbn [cfg world]; by rewrite Hcache|].
  destruct Hauth as (w2 & Hauth & Hclean2). cbn [cfg world] in *.
  rewrite (bind_Ret _ _ _ _ _ Hauth).
  destruct (cache_loaders_clean (mkState c2 w2)) as (_ & Hpush & _); [done|].
  destruct Hpush as (w3 & Hpush & Hclean3). cbn [cfg world] in *.
  rewrite (bind_Ret _ _ _ _ _ Hpush).
  destruct (cache_loaders_clean (mkState c2 w3)) as (_ & _ & Hpref); [done|].
  destruct Hpref as (w4 & Hpref & Hclean4). cbn [cfg world] in *.
  rewrite (bind_Ret _ _ _ _ _ Hpref).
  unfold bind, onRooms. cbn [cfg world]. rewrite HR.
  pose proof (Hrooms (RoomListPath (cfg s)) (StateDir (cfg s))
                (RoomCacheSize (cfg s)) (RoomCacheAge (cfg s))
                (GetUserID c2) w4) as Hlistok.
  unfold freshRooms.
  destruct (LoadList _ _ w4) as [[r' w5] e]. cbn [snd] in Hlistok.
  rewrite Hlistok.
  - exists r', w5. unfold ret. by rewrite Hc2, set_Rooms_twice.
  - apply Hclean4.
  - rewrite Hlist. apply Join_nonempty.
  - destruct Hclean4 as [_ Habs]. rewrite Hcache, Forall_forall in Habs.
    rewrite Hlist. apply Habs. unfold cache_files. rewrite !elem_of_cons. tauto.
Qed.
End FreshStart.

(** * Properties of the package *)

Section Properties.
Context `{Libs}.

(** C1. Once [Clear] has run, and whatever other operations follow it
    short of [DeleteSession], every save operation ([Save],
    [SaveAuthCache], [SavePreferences], [SavePushRules], and the saves
    inside [SaveFilterID] and [SaveNextBatch]) returns at once: the file
    tree is untouched and no system call is issued; the flag stays set.
    [DeleteSession] then returns with saving enabled again. *)
Theorem saves_are_noops_after_Clear (s : State) (between : list Op)
    (op : SaveOp) :
  OpDeleteSession ∉ between →
  let s1 := final ((Clear;; run_all between) s) in
  run_save op s1 = Ret tt (mkState (memory_effect op (cfg s1)) (world s1))
  ∧ nosave (memory_effect op (cfg s1)) = true
  ∧ returned (DeleteSession s1) = true
  ∧ nosave (cfg (final (DeleteSession s1))) = false.
Proof.
  intros Hnot s1.
  assert (Hflag : nosave (cfg s1) = true).
  { subst s1. unfold bind. destruct (Clear_eq s) as (w & Heq & _).
    rewrite Heq. by apply flag_set_run_all. }
  split; [by apply run_save_suppressed|].
  split; [by destruct op|].
  split; [apply DeleteSession_returns|apply DeleteSession_clears_flag].
Qed.

(** C2. The save-suppression flag has two transitions: [Clear] sets it and
    [DeleteSession], which always runs to completion, clears it.  Every
    other operation of the aggregate, [ClearData] among them, leaves the
    flag as it was, whether the operation returns or panics. *)
Theorem suppression_flag_transitions (op : Op) (s : State) :
  nosave (cfg (final (run op s))) = flag_after op (nosave (cfg s))
  ∧ nosave (cfg (final (Clear s))) = true
  ∧ returned (DeleteSession s) = true
  ∧ nosave (cfg (final (DeleteSession s))) = false
  ∧ nosave (cfg (final (ClearData s))) = nosave (cfg s).
Proof.
  split; [apply flag_after_run|].
  split; [apply Clear_sets_flag|].
  split; [apply DeleteSession_returns|].
  split; [apply DeleteSession_clears_flag|].
  apply ClearData_keeps_flag.
Qed.

(** C3 (as amended). [DeleteSession] always returns.  Afterwards the sync
    token, the initial-sync flag, the access token and the device id are
    cleared, the push rules are dropped, the room cache is a new one built
    from the aggregate's room-list path, state directory, capacity and
    maximum age, and saving is enabled; every other field -- the filter
    id, the user id, the homeserver, the tunables, the paths, the keymap
    and the preferences -- keeps the value it had.  So the result is the
    fresh aggregate of [NewConfig] (with its room cache in place) whenever
    only those session fields had been changed since construction. *)
Theorem DeleteSession_resets_session_fields (s : State)
    (configDir dataDir cacheDir downloadDir : path)
    (nextBatch accessToken deviceID : string) (syncDone flag : bool)
    (rooms : option RoomCache) (rules : option PushRuleset)
    (w : World Bytes) :
  let c := cfg s in
  let fresh := NewConfig configDir dataDir cacheDir downloadDir in
  (∃ w',
     DeleteSession s =
     Ret tt
       (mkState
          (mkConfig (UserID c) "" "" (HS c) (RoomCacheSize c)
             (RoomCacheAge c) (NotifySound c) (SendToVerifiedOnly c)
             (Dir c) (DataDir c) (CacheDir c) (HistoryPath c)
             (RoomListPath c) (MediaDir c) (DownloadDir c) (StateDir c)
             (Keymap c) (cfgKeyMap c) (Preferences c)
             (mkAuthCache "" (FilterID (cfgAuthCache c)) false)
             (Some (NewRoomCache (RoomListPath c) (StateDir c)
                      (RoomCacheSize c) (RoomCacheAge c)))
             None false)
          w'))
  ∧ (∃ w',
       DeleteSession
         (mkState
            (set_nosave flag
               (set_PushRules rules
                  (set_Rooms rooms
                     (set_DeviceID deviceID
                        (set_AccessToken accessToken
                           (set_InitialSyncDone syncDone
                              (set_NextBatch nextBatch fresh)))))))
            w) =
       Ret tt (mkState (set_Rooms (Some (freshRooms fresh)) fresh) w')).
Proof.
  intros c fresh. split.
  - destruct (DeleteSession_eq s) as (w' & Heq & _). exists w'.
    by rewrite Heq.
  - match goal with
    | |- ∃ _, DeleteSession ?s0 = _ =>
        destruct (DeleteSession_eq s0) as (w' & Heq & _); exists w'
    end.
    by rewrite Heq.
Qed.

(** A section loader that finds no file returns with the aggregate as it
    was. *)
Lemma load_section_absent (sec : SectionId) (s : State) :
  blocked (fs (world s)) (section_dir sec (cfg s)) = false →
  fs (world s) !! section_path sec (cfg s) = None →
  ∃ w, load_section sec s = Ret tt (mkState (cfg s) w).
Proof.
  intros Hdir Habsent.
  destruct sec; cbn [load_section section_dir section_path section_file] in *;
    unfold Load, LoadPreferences, LoadAuthCache, LoadPushRules, LoadKeymap;
    rewrite get_cfg_bind.
  - erewrite bind_Ret; [|by apply load_absent].
    match goal with
    | |- ∃ _, CreateCacheDirs ?s0 = _ =>
        destruct (CreateCacheDirs_eq s0) as (w & Heq & _)
    end.
    exists w. by rewrite Heq.
  - eexists. by apply load_absent.
  - eexists. by apply load_absent.
  - eexists. by apply load_absent.
  - eexists. by apply load_absent.
Qed.



(** C5 (as amended). Calling [DeleteSession] twice in a row from a
    well-formed tree: both calls return, and the second changes nothing that
    can be observed of the first's end state -- the aggregate is the same,
    field for field, and the same cache directories are present.  In that
    state the sync token and the initial-sync flag are cleared (the filter
    id is as it was), the access token and the device id are empty, the
    room cache is a new one, the push rules are dropped, and each of the
    four directories is present unless a regular file is in its way. *)
Theorem DeleteSession_twice (s : State) :
  well_formed (fs (world s)) →
  ∃ s1 s2,
    DeleteSession s = Ret tt s1
    ∧ DeleteSession s1 = Ret tt s2
    ∧ cfg s2 = cfg s1
    ∧ dirs_present (cfg s2) (fs (world s2))
      = dirs_present (cfg s1) (fs (world s1))
    ∧ NextBatch (cfgAuthCache (cfg s1)) = ""
    ∧ InitialSyncDone (cfgAuthCache (cfg s1)) = false
    ∧ FilterID (cfgAuthCache (cfg s1)) = FilterID (cfgAuthCache (cfg s))
    ∧ AccessToken (cfg s1) = ""
    ∧ DeviceID (cfg s1) = ""
    ∧ Rooms (cfg s1) = Some (freshRooms (cfg s))
    ∧ PushRules (cfg s1) = None
    ∧ (∀ d, d ∈ cache_dirs (cfg s) →
            blocked (removed (cfg s) (fs (world s))) d = false →
            is_dir_at (fs (world s1)) d = true).
Proof.
  intros Hwf.
  destruct (DeleteSession_eq s) as (w1 & Heq1 & Hfs1).
  destruct (DeleteSession_eq (mkState (session_deleted (cfg s)) w1))
    as (w2 & Heq2 & Hfs2).
  cbn [cfg world] in Heq2, Hfs2.
  destruct (session_deleted_paths (cfg s)) as (Hdirs & Hcreated & Hremoved).
  rewrite session_deleted_twice in Heq2.
  rewrite Hcreated, Hremoved, Hfs1 in Hfs2.
  exists (mkState (session_deleted (cfg s)) w1),
         (mkState (session_deleted (cfg s)) w2).
  split; [done|]. split; [done|]. split; [done|]. cbn [cfg world].
  split.
  { unfold dirs_present. rewrite Hdirs.
    rewrite Hfs2, Hfs1. by apply dirs_present_again. }
  assert (Hfields :
    NextBatch (cfgAuthCache (session_deleted (cfg s))) = ""
    ∧ InitialSyncDone (cfgAuthCache (session_deleted (cfg s))) = false
    ∧ FilterID (cfgAuthCache (session_deleted (cfg s)))
      = FilterID (cfgAuthCache (cfg s))
    ∧ AccessToken (session_deleted (cfg s)) = ""
    ∧ DeviceID (session_deleted (cfg s)) = ""
    ∧ Rooms (session_deleted (cfg s)) = Some (freshRooms (cfg s))
    ∧ PushRules (session_deleted (cfg s)) = None).
  { destruct (cfg s). vm_compute. repeat split. }
  destruct Hfields as (? & ? & ? & ? & ? & ? & ?).
  repeat (split; [done|]).
  intros d Hd Hb. rewrite Hfs1, is_dir_at_created; [by rewrite Hb| |done].
  by apply well_formed_removed.
Qed.


(** C6. Starting from fresh directories with no section files (and a room
    cache that treats a missing list as empty), [LoadAll] returns normally
    and the main settings are the defaults of [NewConfig]: room-cache
    capacity 32, room-cache maximum age 60 seconds, notify-sound on,
    send-to-verified-only off, keymap "default". *)
Theorem LoadAll_on_fresh_directories
    (configDir dataDir cacheDir downloadDir : path) (w : World Bytes) :
  fresh_start configDir dataDir cacheDir (fs w) →
  room_list_optional →
  ∃ s',
    LoadAll (mkState (NewConfig configDir dataDir cacheDir downloadDir) w)
    = Ret tt s'
    ∧ yaml_view (cfg s')
      = yaml_view (NewConfig configDir dataDir cacheDir downloadDir)
    ∧ RoomCacheSize (cfg s') = 32
    ∧ RoomCacheAge (cfg s') = 60
    ∧ NotifySound (cfg s') = true
    ∧ SendToVerifiedOnly (cfg s') = false
    ∧ Keymap (cfg s') = "default".
Proof.
  intros Hfresh Hrooms.
  destruct (LoadAll_fresh
              (mkState (NewConfig configDir dataDir cacheDir downloadDir) w))
    as (r & w' & Heq); [done..|].
  eexists. split; [exact Heq|]. cbn [cfg]. repeat split.
Qed.

(** C7. With no push ruleset ([config.PushRules == nil]) [SavePushRules]
    returns at once, leaving the aggregate and the world, system-call
    trace included, exactly as they were; and [SaveAll] is then the
    sequence of its other steps. *)
Theorem absent_push_rules_are_not_saved (s : State) :
  PushRules (cfg s) = None →
  SavePushRules s = Ret tt s
  ∧ SaveAll s =
    (Save;;
     SaveAuthCache;;
     SavePreferences;;
     err <- onRooms SaveList;;
     match err with
     | Some e => panic (PanicError e)
     | None => onRooms (fun r u w => (SaveLoadedRooms r u w, tt))
     end) s.
Proof.
  intros Hnil.
  assert (Hskip : ∀ s', PushRules (cfg s') = None →
                        SavePushRules s' = Ret tt s').
  { intros s' Hs'. unfold SavePushRules. rewrite get_cfg_bind.
    by rewrite Hs'. }
  split; [by apply Hskip|].
  assert (Hcfg1 : ∀ s1, cfg (final (Save s1)) = cfg s1).
  { intros s1. unfold Save. rewrite get_cfg_bind. apply save_cfg. }
  assert (Hcfg2 : ∀ s1, cfg (final (SaveAuthCache s1)) = cfg s1).
  { intros s1. unfold SaveAuthCache. rewrite get_cfg_bind. apply save_cfg. }
  unfold SaveAll.
  apply bind_ext. intros [] s1 HSave.
  apply bind_ext. intros [] s2 HAuth.
  specialize (Hcfg1 s). rewrite HSave in Hcfg1.
  specialize (Hcfg2 s1). rewrite HAuth in Hcfg2.
  cbn [final] in Hcfg1, Hcfg2.
  unfold bind at 1. rewrite Hskip; [done|]. by rewrite Hcfg2, Hcfg1.
Qed.

(** C8. The room-object accessors never return: for every argument,
    [SaveRoom] and [LoadRoom] panic with their "is not supported"
    message, in the state they were called in. *)
Theorem room_accessors_unsupported {Room : Type} (room : Room)
    (roomID : string) (s : State) :
  SaveRoom room s = Panic (UnsupportedOperation "SaveRoom") s
  ∧ LoadRoom (Room := Room) roomID s
    = Panic (UnsupportedOperation "LoadRoom") s
  ∧ returned (SaveRoom room s) = false
  ∧ returned (LoadRoom (Room := Room) roomID s) = false.
Proof. done. Qed.
End Properties.

(** * Further properties of the section store and the accessors *)

Section StoreProperties.
Context `{Libs}.

(** X1. What [save] wrote, [load] reads back: after a save that is not
    suppressed, loading the same directory and file name into any aggregate
    returns normally and assigns the saved value to the target, provided the
    codec reads back what it writes. *)
Theorem saved_section_loads_back {V : Type} `{!Serializable V}
    (name name' : string) (dir : path) (file : string)
    (source target : Config → V) (assign : V → Config → Config)
    (s : State) (data : Bytes) :
  nosave (cfg s) = false →
  blocked (fs (world s)) dir = false →
  fs (world s) !! Join dir file ≠ Some Directory →
  Marshal (codec_for file) (source (cfg s)) = inl data →
  round_trips (codec_for file) →
  ∃ w1,
    save name dir file source s = Ret tt (mkState (cfg s) w1)
    ∧ fs w1 !! Join dir file = Some (File data)
    ∧ ∀ c2 : Config,
        ∃ w2, load name' dir file target assign (mkState c2 w1)
              = Ret tt (mkState (assign (source (cfg s)) c2) w2).
Proof.
  intros Hflag Hdir Hnot Henc Hround. eexists. split; [|split].
  - by apply save_writes.
  - cbn [fs]. apply lookup_insert_eq.
  - intros c2. eexists. rewrite (load_present _ _ _ _ _ _ data).
    + cbn [cfg world fs trace]. by rewrite (Hround _ _ (target c2) Henc).
    + cbn [world fs]. apply blocked_false. intros q Hq.
      unfold is_file_at.
      destruct (decide (q = Join dir file)) as [->|Hne].
      * by apply Join_not_ancestor in Hq.
      * rewrite lookup_insert_ne by done.
        pose proof (is_file_at_mkdirs (fs (world s)) (ancestors dir) q) as Hf.
        unfold is_file_at in Hf. rewrite Hf.
        by apply (proj1 (blocked_false _ _) Hdir).
    + cbn [world fs]. apply lookup_insert_eq.
Qed.

(** X3. When the section's directory cannot be created (a path component
    is a regular file), [load] panics with that error before reading, and so
    does a [save] that is not suppressed, before encoding or writing; the
    aggregate and the tree are as they were. *)
Theorem directory_creation_failure_is_fatal {V : Type} `{!Serializable V}
    (name : string) (dir : path) (file : string)
    (target : Config → V) (assign : V → Config → Config) (s : State) :
  blocked (fs (world s)) dir = true →
  let s' := mkState (cfg s)
              (mkWorld (fs (world s))
                       (trace (world s) ++ [SysMkdirAll dir])) in
  load name dir file target assign s = Panic (PanicError ENOTDIR) s'
  ∧ (nosave (cfg s) = false →
     save name dir file target s = Panic (PanicError ENOTDIR) s').
Proof.
  intros Hb s'. split; [by apply load_blocked|].
  intros Hflag. by apply save_blocked.
Qed.

(** X4. A file that is present but does not decode is fatal, unlike a
    missing one: [load] panics with the codec's error, and the target holds
    whatever the codec left in it. *)
Theorem malformed_section_is_fatal {V : Type} `{!Serializable V}
    (name : string) (dir : path) (file : string)
    (target : Config → V) (assign : V → Config → Config) (s : State)
    (data : Bytes) (partial : V) (e : error) :
  blocked (fs (world s)) dir = false →
  fs (world s) !! Join dir file = Some (File data) →
  Unmarshal (codec_for file) data (target (cfg s)) = (partial, Some e) →
  ∃ w, load name dir file target assign s
       = Panic (PanicError e) (mkState (assign partial (cfg s)) w)
       ∧ fs w !! Join dir file = Some (File data).
Proof.
  intros Hdir Hfile Hdec. eexists.
  rewrite (load_present _ _ _ _ _ _ data) by done. rewrite Hdec. cbn [fst snd].
  split; [reflexivity|]. cbn [fs]. by rewrite lookup_mkdirs_Join.
Qed.


(** X6. The auth-cache accessors: what [SaveFilterID] or [SaveNextBatch]
    stored is what [LoadFilterID] or [LoadNextBatch] returns, for any user
    id given to either side, whether the save behind the setter wrote, was
    suppressed or panicked; each setter leaves the other two fields of the
    auth cache alone. *)
Theorem auth_cache_accessors (user user' value : string) (s : State) :
  let s1 := final (SaveFilterID user value s) in
  let s2 := final (SaveNextBatch user value s) in
  LoadFilterID user' (cfg s1) = value
  ∧ LoadNextBatch user' (cfg s1) = LoadNextBatch user' (cfg s)
  ∧ InitialSyncDone (cfgAuthCache (cfg s1))
    = InitialSyncDone (cfgAuthCache (cfg s))
  ∧ LoadNextBatch user' (cfg s2) = value
  ∧ LoadFilterID user' (cfg s2) = LoadFilterID user' (cfg s)
  ∧ InitialSyncDone (cfgAuthCache (cfg s2))
    = InitialSyncDone (cfgAuthCache (cfg s)).
Proof.
  intros s1 s2.
  assert (H1 : cfg s1 = set_FilterID value (cfg s)).
  { unfold s1, SaveFilterID. rewrite modify_cfg_bind.
    unfold SaveAuthCache. rewrite get_cfg_bind. by rewrite save_cfg. }
  assert (H2 : cfg s2 = set_NextBatch value (cfg s)).
  { unfold s2, SaveNextBatch. rewrite modify_cfg_bind.
    unfold SaveAuthCache. rewrite get_cfg_bind. by rewrite save_cfg. }
  rewrite H1, H2. by destruct (cfg s).
Qed.
End StoreProperties.

(** * Further properties of the methods *)

Section MethodProperties.
Context `{Libs}.

(** X2. A filter id set with [SaveFilterID] survives a restart: when the
    save behind the setter is not suppressed, the cache directory can be
    created, no directory lies where [auth-cache.yaml] goes, the auth cache
    encodes, and the YAML codec reads back what it writes, then
    [LoadAuthCache] on a newly constructed aggregate with the same cache
    directory returns and yields that filter id, with the rest of the auth
    cache, whatever user id is given to the setter or the getter. *)
Theorem filter_id_survives_restart (user user' filterID : string)
    (s : State) (configDir dataDir downloadDir : path) (data : Bytes) :
  nosave (cfg s) = false →
  blocked (fs (world s)) (CacheDir (cfg s)) = false →
  fs (world s) !! Join (CacheDir (cfg s)) "auth-cache.yaml"
    ≠ Some Directory →
  Marshal yaml_AuthCache (cfgAuthCache (set_FilterID filterID (cfg s)))
    = inl data →
  round_trips yaml_AuthCache →
  ∃ s1 s2,
    SaveFilterID user filterID s = Ret tt s1
    ∧ LoadAuthCache
        (mkState (NewConfig configDir dataDir (CacheDir (cfg s)) downloadDir)
                 (world s1))
      = Ret tt s2
    ∧ LoadFilterID user' (cfg s2) = filterID
    ∧ cfgAuthCache (cfg s2) = cfgAuthCache (cfg s1).
Proof.
  intros Hflag Hdir Hnot Henc Hround.
  unfold SaveFilterID. rewrite modify_cfg_bind.
  unfold SaveAuthCache. rewrite get_cfg_bind. cbn [cfg].
  change (CacheDir (set_FilterID filterID (cfg s))) with (CacheDir (cfg s)).
  rewrite (save_writes _ _ _ _ _ data); [|done..].
  eexists _, _. split; [reflexivity|].
  unfold LoadAuthCache. rewrite get_cfg_bind. cbn [cfg world].
  change (CacheDir (NewConfig configDir dataDir (CacheDir (cfg s))
                              downloadDir)) with (CacheDir (cfg s)).
  rewrite (load_present _ _ _ _ _ _ data).
  - cbn [cfg world fs trace].
    change (codec_for "auth-cache.yaml") with yaml_AuthCache.
    rewrite (Hround _ _ _ Henc). cbn [fst snd].
    split; [reflexivity|]. cbn [cfg]. split; [|reflexivity].
    unfold LoadFilterID. cbn. by destruct (cfgAuthCache (cfg s)).
  - cbn [world fs]. apply blocked_false. intros q Hq. unfold is_file_at.
    destruct (decide (q = Join (CacheDir (cfg s)) "auth-cache.yaml"))
      as [->|Hne].
    + by apply Join_not_ancestor in Hq.
    + rewrite lookup_insert_ne by done.
      pose proof (is_file_at_mkdirs (fs (world s))
                    (ancestors (CacheDir (cfg s))) q) as Hf.
      unfold is_file_at in Hf. rewrite Hf.
      by apply (proj1 (blocked_false _ _) Hdir).
  - cbn [world fs]. apply lookup_insert_eq.
Qed.

(** X7. [Clear] always returns, and in a well-formed tree it leaves
    nothing at or below the state, media and cache directories and no
    regular file at the history and room-list paths; whatever lies
    elsewhere is untouched, and the aggregate changes in the flag only. *)
Theorem Clear_empties_the_cache (s : State) :
  well_formed (fs (world s)) →
  ∃ w,
    Clear s = Ret tt (mkState (set_nosave true (cfg s)) w)
    ∧ (∀ d q, d ∈ [StateDir (cfg s); MediaDir (cfg s); CacheDir (cfg s)] →
              d `prefix_of` q → fs w !! q = None)
    ∧ is_file_at (fs w) (HistoryPath (cfg s)) = false
    ∧ is_file_at (fs w) (RoomListPath (cfg s)) = false
    ∧ (∀ q, ¬ StateDir (cfg s) `prefix_of` q →
            ¬ MediaDir (cfg s) `prefix_of` q →
            ¬ CacheDir (cfg s) `prefix_of` q →
            q ≠ HistoryPath (cfg s) → q ≠ RoomListPath (cfg s) →
            fs w !! q = fs (world s) !! q)
    ∧ well_formed (fs w).
Proof.
  intros Hwf. destruct (Clear_eq s) as (w & Heq & Hfs). exists w.
  split; [exact Heq|]. rewrite Hfs. clear Heq Hfs.
  set (t := fs (world s)) in *.
  set (t1 := (fs_Remove t (HistoryPath (cfg s))).1).
  set (t2 := (fs_Remove t1 (RoomListPath (cfg s))).1).
  assert (Hwf1 : well_formed t1) by by apply well_formed_Remove.
  split; [|split; [|split; [|split]]].
  - intros d q Hd Hpre. rewrite !elem_of_cons, elem_of_nil in Hd.
    destruct Hd as [->|[->|[->|[]]]].
    + do 2 apply lookup_RemoveAll_None. rewrite lookup_RemoveAll.
      by destruct (decide _).
    + apply lookup_RemoveAll_None. rewrite lookup_RemoveAll.
      by destruct (decide _).
    + rewrite lookup_RemoveAll. by destruct (decide _).
  - apply not_true_iff_false. intros Hq.
    do 3 apply is_file_at_RemoveAll_mono in Hq.
    apply is_file_at_Remove_mono in Hq.
    unfold t1 in Hq. by rewrite is_file_at_Remove_self in Hq.
  - apply not_true_iff_false. intros Hq.
    do 3 apply is_file_at_RemoveAll_mono in Hq.
    unfold t2 in Hq. by rewrite is_file_at_Remove_self in Hq.
  - intros q Hs Hm Hc Hh Hr. rewrite !lookup_RemoveAll.
    destruct (decide (CacheDir (cfg s) `prefix_of` q)); [done|].
    destruct (decide (MediaDir (cfg s) `prefix_of` q)); [done|].
    destruct (decide (StateDir (cfg s) `prefix_of` q)); [done|].
    unfold t2, t1. by rewrite !lookup_Remove_other.
  - do 3 apply well_formed_RemoveAll. by apply well_formed_Remove.
Qed.

(** X8. [CreateCacheDirs] always returns and is idempotent: a second call
    leaves the tree of the first.  It changes no existing entry, makes no
    regular file, and leaves the aggregate alone. *)
Theorem CreateCacheDirs_idempotent (s : State) :
  ∃ w1 w2,
    CreateCacheDirs s = Ret tt (mkState (cfg s) w1)
    ∧ CreateCacheDirs (mkState (cfg s) w1) = Ret tt (mkState (cfg s) w2)
    ∧ fs w2 = fs w1
    ∧ (∀ q n, fs (world s) !! q = Some n → fs w1 !! q = Some n)
    ∧ (∀ q, is_file_at (fs w1) q = is_file_at (fs (world s)) q).
Proof.
  destruct (CreateCacheDirs_eq s) as (w1 & Heq1 & Hfs1).
  destruct (CreateCacheDirs_eq (mkState (cfg s) w1)) as (w2 & Heq2 & Hfs2).
  cbn [cfg world] in *. exists w1, w2.
  split; [done|]. split; [done|]. rewrite Hfs2, Hfs1.
  split; [apply created_twice|]. split.
  - intros q n Hq. by apply lookup_created_Some.
  - intros q. apply is_file_at_created.
Qed.

(** X9. [Load] with a [config.yaml] that decodes: the fields that have a
    YAML key take the decoded values, the others ([Dir], the keymap, the
    preferences, the auth cache, the room cache, the push rules, the flag)
    keep theirs, and the cache directories are then created at the loaded
    locations. *)
Theorem Load_merges_settings (s : State) (data : Bytes) (y : ConfigYAML) :
  blocked (fs (world s)) (Dir (cfg s)) = false →
  fs (world s) !! Join (Dir (cfg s)) "config.yaml" = Some (File data) →
  Unmarshal yaml_Config data (yaml_view (cfg s)) = (y, None) →
  ∃ c' w,
    Load s = Ret tt (mkState c' w)
    ∧ yaml_view c' = y
    ∧ Dir c' = Dir (cfg s)
    ∧ cfgKeyMap c' = cfgKeyMap (cfg s)
    ∧ Preferences c' = Preferences (cfg s)
    ∧ cfgAuthCache c' = cfgAuthCache (cfg s)
    ∧ Rooms c' = Rooms (cfg s)
    ∧ PushRules c' = PushRules (cfg s)
    ∧ nosave c' = nosave (cfg s)
    ∧ fs w = created c' (foldr mkdir1 (fs (world s))
                           (ancestors (Dir (cfg s)))).
Proof.
  intros Hdir Hfile Hdec. unfold Load. rewrite get_cfg_bind.
  assert (Hload : ∃ w0,
            load "config" (Dir (cfg s)) "config.yaml" (λ c : Config, c)
                 (λ (v : Config) (_ : Config), v) s
            = Ret tt (mkState (yaml_merge y (cfg s)) w0)
            ∧ fs w0 = foldr mkdir1 (fs (world s)) (ancestors (Dir (cfg s)))).
  { eexists. rewrite (load_present _ _ _ _ _ _ data) by done.
    change (codec_for "config.yaml") with Config_yaml.
    cbn [Unmarshal Config_yaml]. rewrite Hdec. cbn [fst snd].
    split; reflexivity. }
  destruct Hload as (w0 & Hload & Hfs0).
  rewrite (bind_Ret _ _ _ _ _ Hload).
  match goal with
  | |- ∃ _ _, CreateCacheDirs ?s0 = _ ∧ _ =>
      destruct (CreateCacheDirs_eq s0) as (w & Heq & Hfs)
  end.
  cbn [cfg world fs] in *. exists (yaml_merge y (cfg s)), w.
  split; [exact Heq|]. rewrite Hfs, Hfs0.
  assert (Hfields :
    yaml_view (yaml_merge y (cfg s)) = y
    ∧ Dir (yaml_merge y (cfg s)) = Dir (cfg s)
    ∧ cfgKeyMap (yaml_merge y (cfg s)) = cfgKeyMap (cfg s)
    ∧ Preferences (yaml_merge y (cfg s)) = Preferences (cfg s)
    ∧ cfgAuthCache (yaml_merge y (cfg s)) = cfgAuthCache (cfg s)
    ∧ Rooms (yaml_merge y (cfg s)) = Rooms (cfg s)
    ∧ PushRules (yaml_merge y (cfg s)) = PushRules (cfg s)
    ∧ nosave (yaml_merge y (cfg s)) = nosave (cfg s)).
  { destruct (cfg s), y. repeat split. }
  destruct Hfields as (? & ? & ? & ? & ? & ? & ? & ?).
  repeat (split; [done|]). reflexivity.
Qed.

(** X10. Suppression covers the sections only: with the flag set,
    [SaveAll] writes none of the four sections but still asks the room cache
    to save its list and its loaded rooms. *)
Theorem SaveAll_under_suppression (s : State) :
  nosave (cfg s) = true →
  SaveAll s =
  (err <- onRooms SaveList;;
   match err with
   | Some e => panic (PanicError e)
   | None => onRooms (fun r u w => (SaveLoadedRooms r u w, tt))
   end) s.
Proof.
  intros Hflag. unfold SaveAll.
  assert (Hnoop : ∀ op, memory_effect op (cfg s) = cfg s →
                        run_save op s = Ret tt s).
  { intros op Hmem. rewrite run_save_suppressed by done.
    rewrite Hmem. by destruct s. }
  rewrite (bind_Ret _ _ _ _ _ (Hnoop OpSave eq_refl)).
  rewrite (bind_Ret _ _ _ _ _ (Hnoop OpSaveAuthCache eq_refl)).
  rewrite (bind_Ret _ _ _ _ _ (Hnoop OpSavePushRules eq_refl)).
  by rewrite (bind_Ret _ _ _ _ _ (Hnoop OpSavePreferences eq_refl)).
Qed.

(** X11. [load] never writes: whether it returns or panics, every entry
    of the tree is kept as it was, no regular file appears or changes, and
    the only system calls it issues are one [MkdirAll] and at most one
    [ReadFile]. *)
Theorem load_never_writes {V : Type} `{!Serializable V}
    (name : string) (dir : path) (file : string)
    (target : Config → V) (assign : V → Config → Config) (s : State) :
  let s' := final (load name dir file target assign s) in
  (∀ q n, fs (world s) !! q = Some n → fs (world s') !! q = Some n)
  ∧ (∀ q, is_file_at (fs (world s')) q = is_file_at (fs (world s)) q)
  ∧ (trace (world s') = trace (world s) ++ [SysMkdirAll dir]
     ∨ trace (world s')
       = trace (world s) ++ [SysMkdirAll dir; SysReadFile (Join dir file)]).
Proof.
  intros s'.
  assert (Hw : fs (world s') = (fs_MkdirAll (fs (world s)) dir).1
               ∧ (trace (world s') = trace (world s) ++ [SysMkdirAll dir]
                  ∨ trace (world s')
                    = trace (world s)
                      ++ [SysMkdirAll dir; SysReadFile (Join dir file)])).
  { unfold s', load. rewrite os_bind. unfold os_MkdirAll.
    destruct (fs_MkdirAll (fs (world s)) dir) as [t e]. unfold sys.
    cbn [fst snd]. destruct e as [e|]; [split; [done|by left]|].
    rewrite os_bind. unfold ioutil_ReadFile, sys.
    cbn [fst snd world fs trace]. rewrite <- app_assoc.
    destruct (fs_ReadFile t (Join dir file)) as [data|e].
    - rewrite get_cfg_bind. cbn [cfg].
      destruct (Unmarshal (codec_for file) data (target (cfg s))) as [v err].
      rewrite modify_cfg_bind. destruct err; split; try done; by right.
    - destruct (IsNotExist e); split; try done; by right. }
  destruct Hw as [Hfs Htrace]. rewrite Hfs.
  split; [|split; [|exact Htrace]].
  - intros q n Hq. by apply lookup_MkdirAll_Some.
  - intros q. apply is_file_at_MkdirAll.
Qed.

(** X12. [save] touches its own file only: whether it returns or panics,
    every other entry of the tree is kept as it was, and the aggregate is
    unchanged. *)
Theorem save_touches_only_its_file {V : Type} `{!Serializable V}
    (name : string) (dir : path) (file : string)
    (source : Config → V) (s : State) :
  let s' := final (save name dir file source s) in
  cfg s' = cfg s
  ∧ ∀ q n, q ≠ Join dir file →
           fs (world s) !! q = Some n → fs (world s') !! q = Some n.
Proof.
  intros s'. split; [apply save_cfg|]. intros q n Hne Hq.
  unfold s', save. rewrite get_cfg_bind.
  destruct (nosave (cfg s)); [done|].
  rewrite os_bind. unfold os_MkdirAll.
  pose proof (lookup_MkdirAll_Some _ dir _ _ Hq) as Hq1.
  destruct (fs_MkdirAll (fs (world s)) dir) as [t e]. cbn [fst snd] in *.
  destruct e as [e|]; [done|].
  rewrite get_cfg_bind. cbn [cfg].
  destruct (Marshal (codec_for file) (source (cfg s))) as [data|e]; [|done].
  rewrite os_bind. unfold ioutil_WriteFile, sys. cbn [world fs trace].
  pose proof (lookup_WriteFile_other t (Join dir file) q data Hne) as Hq2.
  destruct (fs_WriteFile t (Join dir file) data) as [t' e].
  cbn [fst snd] in *.
  destruct e; unfold panic, ret; cbn [final world fs]; by rewrite Hq2.
Qed.
(** X13. After [DeleteSession] saving works again: with the cache layout
    of [NewConfig], a cache directory that can be recreated and a data
    directory that does not run through the auth-cache file's location,
    [SaveAuthCache] right after [DeleteSession] returns and the file holds
    the encoding of the cleared auth cache. *)
Theorem saving_works_after_DeleteSession (s : State) (data : Bytes) :
  StateDir (cfg s) = Join (CacheDir (cfg s)) "state" →
  MediaDir (cfg s) = Join (CacheDir (cfg s)) "media" →
  blocked (removed (cfg s) (fs (world s))) (CacheDir (cfg s)) = false →
  ¬ Join (CacheDir (cfg s)) "auth-cache.yaml" `prefix_of` DataDir (cfg s) →
  Marshal yaml_AuthCache
          (mkAuthCache "" (FilterID (cfgAuthCache (cfg s))) false)
    = inl data →
  ∃ s1 s2,
    DeleteSession s = Ret tt s1
    ∧ SaveAuthCache s1 = Ret tt s2
    ∧ fs (world s2) !! Join (CacheDir (cfg s)) "auth-cache.yaml"
      = Some (File data).
Proof.
  intros Hstate Hmedia Hcache Hdata Henc.
  destruct (DeleteSession_eq s) as (w1 & Heq & Hfs).
  assert (Hc : CacheDir (session_deleted (cfg s)) = CacheDir (cfg s)
               ∧ nosave (session_deleted (cfg s)) = false
               ∧ cfgAuthCache (session_deleted (cfg s))
                 = mkAuthCache "" (FilterID (cfgAuthCache (cfg s))) false).
  { destruct (cfg s). repeat split. }
  destruct Hc as (Hcd & Hflag & Hauth).
  exists (mkState (session_deleted (cfg s)) w1). eexists.
  split; [exact Heq|].
  unfold SaveAuthCache. rewrite get_cfg_bind. cbn [cfg]. rewrite Hcd.
  rewrite (save_writes _ _ _ _ _ data); cbn [cfg world].
  - split; [reflexivity|]. cbn [world fs]. apply lookup_insert_eq.
  - exact Hflag.
  - by rewrite Hfs, blocked_created.
  - rewrite Hfs, lookup_created.
    assert (Hgone : removed (cfg s) (fs (world s))
                      !! Join (CacheDir (cfg s)) "auth-cache.yaml" = None).
    { unfold removed. rewrite lookup_RemoveAll.
      destruct (decide _) as [|Hn]; [done|].
      exfalso. apply Hn. by apply prefix_app_r. }
    rewrite Hgone.
    assert (Hmade : made (cfg s) (removed (cfg s) (fs (world s)))
                      (Join (CacheDir (cfg s)) "auth-cache.yaml") = false).
    { assert (Hno : ∀ d, d ∈ cache_dirs (cfg s) →
                bool_decide (Join (CacheDir (cfg s)) "auth-cache.yaml"
                             ∈ ancestors d) = false).
      { intros d Hd. apply bool_decide_eq_false.
        rewrite elem_of_ancestors. intros [_ Hpre].
        unfold cache_dirs in Hd. rewrite Hstate, Hmedia in Hd.
        rewrite !elem_of_cons, elem_of_nil in Hd.
        destruct Hd as [->|[->|[->|[->|[]]]]].
        - by apply Join_not_prefix in Hpre.
        - done.
        - by apply Join_prefix_Join in Hpre.
        - by apply Join_prefix_Join in Hpre. }
      unfold made. apply not_true_iff_false. intros Hex.
      apply existsb_exists in Hex as (d & Hd & Hboth).
      apply list_elem_of_In in Hd. rewrite (Hno d Hd) in Hboth.
      by rewrite andb_false_r in Hboth. }
    by rewrite Hmade.
  - change (codec_for "auth-cache.yaml") with yaml_AuthCache.
    by rewrite Hauth.
Qed.

(** X14. [DeleteSession] removes nothing outside the session's
    locations: an entry that is not at or below the data, state, media or
    cache directory, and is not the history or room-list path, is still
    there afterwards -- the main settings file and the keymaps among them
    when the config directory lies elsewhere. *)
Theorem DeleteSession_keeps_what_lies_elsewhere (s : State) (q : path)
    (n : node Bytes) :
  fs (world s) !! q = Some n →
  (∀ d, d ∈ [DataDir (cfg s); StateDir (cfg s); MediaDir (cfg s);
             CacheDir (cfg s)] → ¬ d `prefix_of` q) →
  q ≠ HistoryPath (cfg s) →
  q ≠ RoomListPath (cfg s) →
  ∃ s1, DeleteSession s = Ret tt s1 ∧ fs (world s1) !! q = Some n.
Proof.
  intros Hq Hout Hh Hr. destruct (DeleteSession_eq s) as (w1 & Heq & Hfs).
  eexists. split; [exact Heq|]. cbn [world]. rewrite Hfs.
  apply lookup_created_Some. unfold removed.
  assert (Hall : ∀ t d,
            d ∈ [DataDir (cfg s); StateDir (cfg s); MediaDir (cfg s);
                 CacheDir (cfg s)] →
            t !! q = Some n → (fs_RemoveAll t d).1 !! q = Some n).
  { intros t d Hd Ht. rewrite lookup_RemoveAll.
    destruct (decide (d `prefix_of` q)) as [Hpre|]; [|done].
    by apply Hout in Hpre. }
  apply Hall; [rewrite !elem_of_cons; tauto|].
  apply Hall; [rewrite !elem_of_cons; tauto|].
  apply Hall; [rewrite !elem_of_cons; tauto|].
  rewrite !lookup_Remove_other by done.
  apply Hall; [rewrite !elem_of_cons; tauto|done].
Qed.


End MethodProperties.

(** * The properties on concrete inputs *)

Section SampleFacts.
Import Sample.

Lemma sample_codec_round_trips {V : Type} (f : Format) (enc : V → Encoded)
    (dec : Encoded → option V) :
  (∀ v, dec (enc v) = Some v) → round_trips (codec f enc dec).
Proof.
  intros Hdec v data target [= <-]. cbn. rewrite Hdec. by destruct f.
Qed.

Lemma sample_room_list_optional : room_list_optional.
Proof.
  intros lp sd n a user w Hno Hne Habs. cbn. unfold loadList, ioutil_ReadFile.
  cbn [listPath]. rewrite fs_ReadFile_absent; [done..|].
  by apply no_files_blocked.
Qed.

Lemma sample_world1_well_formed : well_formed (fs world1).
Proof.
  unfold world1. cbn [fs].
  repeat (apply map_Forall_insert_2; [split; [done|]; vm_compute; reflexivity|]).
  apply map_Forall_empty.
Qed.
End SampleFacts.

Section Witnesses.
Import Sample.

Lemma saves_are_noops_after_Clear_witness :
  (OpDeleteSession ∉ [OpLoadAuthCache; OpSaving OpSave; OpSaveAll])
  ∧ (let s1 := final (bind Clear
                              (fun _ => run_all [OpLoadAuthCache;
                                                 OpSaving OpSave; OpSaveAll])
                              (mkState config0 world1)) in
     run_save (OpSaveFilterID "@u:example.org" "abc123") s1
     = Ret tt (mkState (memory_effect (OpSaveFilterID "@u:example.org" "abc123")
                                      (cfg s1)) (world s1))
     ∧ nosave (memory_effect (OpSaveFilterID "@u:example.org" "abc123")
                             (cfg s1)) = true
     ∧ returned (DeleteSession s1) = true
     ∧ nosave (cfg (final (DeleteSession s1))) = false).
Proof.
  assert (Hnot : OpDeleteSession ∉ [OpLoadAuthCache; OpSaving OpSave;
                                    OpSaveAll]).
  { rewrite !not_elem_of_cons. repeat split; try discriminate.
    apply not_elem_of_nil. }
  split; [exact Hnot|].
  exact (saves_are_noops_after_Clear (mkState config0 world1) _
           (OpSaveFilterID "@u:example.org" "abc123") Hnot).
Defined.



Lemma DeleteSession_twice_witness :
  well_formed (fs (world (mkState config0 world1)))
  ∧ ∃ s1 s2,
      DeleteSession (mkState config0 world1) = Ret tt s1
      ∧ DeleteSession s1 = Ret tt s2
      ∧ cfg s2 = cfg s1
      ∧ dirs_present (cfg s2) (fs (world s2))
        = dirs_present (cfg s1) (fs (world s1)).
Proof.
  split; [exact sample_world1_well_formed|].
  destruct (DeleteSession_twice (mkState config0 world1)
              sample_world1_well_formed)
    as (s1 & s2 & Ha & Hb & Hc & Hd & _).
  exists s1, s2. exact (conj Ha (conj Hb (conj Hc Hd))).
Defined.

Lemma sample_fresh_start :
  fresh_start ["etc"; "gomuks"] ["var"; "data"] ["var"; "cache"]
              (fs world0).
Proof.
  split; [apply map_Forall_empty|]. split; [done|].
  repeat constructor; try done; intros [k Hk]; discriminate.
Qed.

Lemma LoadAll_on_fresh_directories_witness :
  fresh_start ["etc"; "gomuks"] ["var"; "data"] ["var"; "cache"] (fs world0)
  ∧ room_list_optional
  ∧ ∃ s',
      LoadAll (mkState (NewConfig ["etc"; "gomuks"] ["var"; "data"]
                                  ["var"; "cache"] ["dl"]) world0)
      = Ret tt s'
      ∧ RoomCacheSize (cfg s') = 32
      ∧ Keymap (cfg s') = "default".
Proof.
  split; [exact sample_fresh_start|]. split; [exact sample_room_list_optional|].
  destruct (@LoadAll_on_fresh_directories externals libs
              ["etc"; "gomuks"] ["var"; "data"] ["var"; "cache"] ["dl"]
              world0 sample_fresh_start sample_room_list_optional)
    as (s' & Ha & _ & Hb & _ & _ & _ & Hc).
  exists s'. exact (conj Ha (conj Hb Hc)).
Defined.

Lemma absent_push_rules_are_not_saved_witness :
  PushRules (cfg state0) = None ∧ SavePushRules state0 = Ret tt state0.
Proof.
  split; [reflexivity|].
  exact (proj1 (absent_push_rules_are_not_saved state0 eq_refl)).
Defined.


(** C3, as first stated, fails: after a filter id has been set,
    [DeleteSession] leaves an aggregate that is not like a fresh one, and
    whose auth cache is not empty. *)
Lemma DeleteSession_not_fresh :
  ¬ like_fresh (cfg (final (DeleteSession state_with_filter)))
  ∧ cfgAuthCache (cfg (final (DeleteSession state_with_filter)))
    ≠ zeroAuthCache.
Proof.
  split.
  - intros Heq. apply (f_equal (fun c => FilterID (cfgAuthCache c))) in Heq.
    vm_compute in Heq. discriminate.
  - intros Heq. apply (f_equal FilterID) in Heq.
    vm_compute in Heq. discriminate.
Qed.

(** C5, as first stated, fails in what it says the end state is: after two
    calls the auth cache still holds the filter id; and where a regular file
    lies on the way to the data directory, that directory is not present. *)
Lemma DeleteSession_twice_not_empty :
  cfgAuthCache
    (cfg (final (DeleteSession (final (DeleteSession state_with_filter)))))
  ≠ zeroAuthCache
  ∧ is_dir_at
      (fs (world (final (DeleteSession (final (DeleteSession
         (mkState config0
            (mkWorld (<[ ["var"] := File Garbage ]> ∅) []))))))))
      ["var"; "data"]
    = false.
Proof.
  split.
  - intros Heq. apply (f_equal FilterID) in Heq.
    vm_compute in Heq. discriminate.
  - vm_compute. reflexivity.
Qed.

End Witnesses.


Section MoreWitnesses.
Import Sample.

Lemma saved_section_loads_back_witness :
  nosave (cfg state0) = false
  ∧ blocked (fs (world state0)) ["var"; "cache"] = false
  ∧ fs (world state0) !! Join ["var"; "cache"] "preferences.yaml"
    ≠ Some Directory
  ∧ round_trips (codec_for (V := UserPreferences) "preferences.yaml")
  ∧ ∃ w1,
      save "user preferences" ["var"; "cache"] "preferences.yaml"
           Preferences state0
      = Ret tt (mkState (cfg state0) w1).
Proof.
  assert (H1 : nosave (cfg state0) = false) by reflexivity.
  assert (H2 : blocked (fs (world state0)) ["var"; "cache"] = false)
    by (vm_compute; reflexivity).
  assert (H3 : fs (world state0) !! Join ["var"; "cache"] "preferences.yaml"
               ≠ Some Directory) by (vm_compute; discriminate).
  assert (H4 : round_trips (codec_for (V := UserPreferences)
                                      "preferences.yaml"))
    by (by apply sample_codec_round_trips).
  repeat (split; [assumption|]).
  destruct (@saved_section_loads_back externals UserPreferences
              (@UserPreferences_Serializable externals libs)
              "user preferences" "user preferences"
              ["var"; "cache"] "preferences.yaml" Preferences Preferences
              set_Preferences state0
              (Document YAML (EncUserPreferences zeroUserPreferences))
              H1 H2 H3 ltac:(vm_compute; reflexivity) H4)
    as (w1 & Hsave & _).
  exists w1. exact Hsave.
Defined.

Lemma filter_id_survives_restart_witness :
  nosave (cfg state0) = false
  ∧ blocked (fs (world state0)) (CacheDir (cfg state0)) = false
  ∧ fs (world state0) !! Join (CacheDir (cfg state0)) "auth-cache.yaml"
    ≠ Some Directory
  ∧ round_trips yaml_AuthCache
  ∧ ∃ s1 s2,
      SaveFilterID "@u:example.org" "abc123" state0 = Ret tt s1
      ∧ LoadAuthCache
          (mkState (NewConfig ["etc"] ["data"] (CacheDir (cfg state0)) ["dl"])
                   (world s1)) = Ret tt s2
      ∧ LoadFilterID "@other:example.org" (cfg s2) = "abc123".
Proof.
  assert (H1 : nosave (cfg state0) = false) by reflexivity.
  assert (H2 : blocked (fs (world state0)) (CacheDir (cfg state0)) = false)
    by (vm_compute; reflexivity).
  assert (H3 : fs (world state0) !! Join (CacheDir (cfg state0))
                                      "auth-cache.yaml" ≠ Some Directory)
    by (vm_compute; discriminate).
  assert (H4 : round_trips yaml_AuthCache)
    by (by apply sample_codec_round_trips).
  repeat (split; [assumption|]).
  destruct (@filter_id_survives_restart externals libs "@u:example.org" "@other:example.org"
              "abc123" state0 ["etc"] ["data"] ["dl"]
              (Document YAML (EncAuthCache (mkAuthCache "" "abc123" false)))
              H1 H2 H3 ltac:(vm_compute; reflexivity) H4)
    as (s1 & s2 & Ha & Hb & Hc & _).
  exists s1, s2. exact (conj Ha (conj Hb Hc)).
Defined.

Lemma directory_creation_failure_is_fatal_witness :
  blocked (fs (world (mkState config0 world_blocked))) ["var"; "cache"] = true
  ∧ load "auth cache" ["var"; "cache"] "auth-cache.yaml" cfgAuthCache
         set_cfgAuthCache (mkState config0 world_blocked)
    = Panic (PanicError ENOTDIR)
            (mkState config0
               (mkWorld (fs world_blocked)
                        (trace world_blocked
                         ++ [SysMkdirAll ["var"; "cache"]]))).
Proof.
  assert (H1 : blocked (fs (world (mkState config0 world_blocked)))
                 ["var"; "cache"] = true) by (vm_compute; reflexivity).
  split; [exact H1|].
  exact (proj1 (@directory_creation_failure_is_fatal externals
                  AuthCache (@AuthCache_Serializable externals libs) "auth cache"
                  ["var"; "cache"] "auth-cache.yaml" cfgAuthCache
                  set_cfgAuthCache (mkState config0 world_blocked) H1)).
Defined.

Lemma malformed_section_is_fatal_witness :
  blocked (fs (world (mkState config0 world_garbage))) ["var"; "cache"]
  = false
  ∧ fs (world (mkState config0 world_garbage))
      !! Join ["var"; "cache"] "auth-cache.yaml" = Some (File Garbage)
  ∧ ∃ w, load "auth cache" ["var"; "cache"] "auth-cache.yaml" cfgAuthCache
              set_cfgAuthCache (mkState config0 world_garbage)
         = Panic (PanicError malformed)
                 (mkState (set_cfgAuthCache zeroAuthCache config0) w).
Proof.
  assert (H1 : blocked (fs (world (mkState config0 world_garbage)))
                 ["var"; "cache"] = false) by (vm_compute; reflexivity).
  assert (H2 : fs (world (mkState config0 world_garbage))
                 !! Join ["var"; "cache"] "auth-cache.yaml"
               = Some (File Garbage)) by (vm_compute; reflexivity).
  split; [exact H1|]. split; [exact H2|].
  destruct (@malformed_section_is_fatal externals AuthCache
              (@AuthCache_Serializable externals libs) "auth cache" ["var"; "cache"]
              "auth-cache.yaml" cfgAuthCache set_cfgAuthCache
              (mkState config0 world_garbage) Garbage zeroAuthCache malformed
              H1 H2 ltac:(vm_compute; reflexivity)) as (w & Hload & _).
  exists w. exact Hload.
Defined.


Lemma Clear_empties_the_cache_witness :
  well_formed (fs (world (mkState config0 world1)))
  ∧ ∃ w, Clear (mkState config0 world1)
         = Ret tt (mkState (set_nosave true config0) w)
         ∧ is_file_at (fs w) (RoomListPath config0) = false.
Proof.
  split; [exact sample_world1_well_formed|].
  destruct (Clear_empties_the_cache (mkState config0 world1)
              sample_world1_well_formed) as (w & Ha & _ & _ & Hb & _).
  exists w. exact (conj Ha Hb).
Defined.

Lemma Load_merges_settings_witness :
  blocked (fs (world (mkState config0 world_config)))
          (Dir (cfg (mkState config0 world_config))) = false
  ∧ fs (world (mkState config0 world_config))
      !! Join (Dir (cfg (mkState config0 world_config))) "config.yaml"
    = Some (File (Document YAML (EncConfig settings1)))
  ∧ ∃ c' w,
      Load (mkState config0 world_config) = Ret tt (mkState c' w)
      ∧ yaml_view c' = settings1
      ∧ Dir c' = ["etc"; "gomuks"].
Proof.
  assert (H1 : blocked (fs (world (mkState config0 world_config)))
                 (Dir (cfg (mkState config0 world_config))) = false)
    by (vm_compute; reflexivity).
  assert (H2 : fs (world (mkState config0 world_config))
                 !! Join (Dir (cfg (mkState config0 world_config)))
                         "config.yaml"
               = Some (File (Document YAML (EncConfig settings1))))
    by (vm_compute; reflexivity).
  split; [exact H1|]. split; [exact H2|].
  destruct (@Load_merges_settings externals libs (mkState config0 world_config)
              (Document YAML (EncConfig settings1)) settings1
              H1 H2 ltac:(vm_compute; reflexivity)) as (c' & w & Ha & Hb & Hc & _).
  exists c', w. exact (conj Ha (conj Hb Hc)).
Defined.

Lemma SaveAll_under_suppression_witness :
  nosave (cfg (final (Clear state0))) = true
  ∧ SaveAll (final (Clear state0))
    = (err <- onRooms SaveList;;
       match err with
       | Some e => panic (PanicError e)
       | None => onRooms (fun r u w => (SaveLoadedRooms r u w, tt))
       end) (final (Clear state0)).
Proof.
  assert (H1 : nosave (cfg (final (Clear state0))) = true)
    by (vm_compute; reflexivity).
  split; [exact H1|].
  exact (SaveAll_under_suppression (final (Clear state0)) H1).
Defined.

Lemma saving_works_after_DeleteSession_witness :
  StateDir (cfg state_with_filter)
  = Join (CacheDir (cfg state_with_filter)) "state"
  ∧ MediaDir (cfg state_with_filter)
    = Join (CacheDir (cfg state_with_filter)) "media"
  ∧ blocked (removed (cfg state_with_filter) (fs (world state_with_filter)))
            (CacheDir (cfg state_with_filter)) = false
  ∧ ¬ Join (CacheDir (cfg state_with_filter)) "auth-cache.yaml"
      `prefix_of` DataDir (cfg state_with_filter)
  ∧ ∃ s1 s2,
      DeleteSession state_with_filter = Ret tt s1
      ∧ SaveAuthCache s1 = Ret tt s2
      ∧ fs (world s2) !! Join (CacheDir (cfg state_with_filter))
                              "auth-cache.yaml"
        = Some (File (Document YAML
                        (EncAuthCache (mkAuthCache "" "abc123" false)))).
Proof.
  assert (H1 : StateDir (cfg state_with_filter)
               = Join (CacheDir (cfg state_with_filter)) "state")
    by reflexivity.
  assert (H2 : MediaDir (cfg state_with_filter)
               = Join (CacheDir (cfg state_with_filter)) "media")
    by reflexivity.
  assert (H3 : blocked (removed (cfg state_with_filter)
                                (fs (world state_with_filter)))
                       (CacheDir (cfg state_with_filter)) = false)
    by (vm_compute; reflexivity).
  assert (H4 : ¬ Join (CacheDir (cfg state_with_filter)) "auth-cache.yaml"
                 `prefix_of` DataDir (cfg state_with_filter)).
  { intros [k Hk]. vm_compute in Hk. discriminate. }
  repeat (split; [assumption|]).
  exact (@saving_works_after_DeleteSession externals libs state_with_filter
           (Document YAML (EncAuthCache (mkAuthCache "" "abc123" false)))
           H1 H2 H3 H4 ltac:(vm_compute; reflexivity)).
Defined.

Lemma DeleteSession_keeps_what_lies_elsewhere_witness :
  fs (world (mkState config0 world_config))
    !! ["etc"; "gomuks"; "config.yaml"]
  = Some (File (Document YAML (EncConfig settings1)))
  ∧ ∃ s1, DeleteSession (mkState config0 world_config) = Ret tt s1
          ∧ fs (world s1) !! ["etc"; "gomuks"; "config.yaml"]
            = Some (File (Document YAML (EncConfig settings1))).
Proof.
  assert (H1 : fs (world (mkState config0 world_config))
                 !! ["etc"; "gomuks"; "config.yaml"]
               = Some (File (Document YAML (EncConfig settings1))))
    by (vm_compute; reflexivity).
  split; [exact H1|].
  refine (DeleteSession_keeps_what_lies_elsewhere
            (mkState config0 world_config) _ _ H1 _ _ _).
  - intros d Hd [k Hk]. rewrite !elem_of_cons, elem_of_nil in Hd.
    destruct Hd as [->|[->|[->|[->|[]]]]]; vm_compute in Hk; discriminate.
  - vm_compute. discriminate.
  - vm_compute. discriminate.
Defined.


End MoreWitnesses.
